(** * Actions of the "Ask a Question" form: AAQActions.es6.js

    The module posts typed events to the dispatcher and issues two kinds of
    HTTP requests.  The development below embeds its functions over an
    explicit state: the events posted so far, the requests issued so far,
    the console, the object heap of the parsed response bodies, the draft
    held by the question store, the clock and the closure of the throttle
    around [searchSuggestions]. *)

From stdpp Require Import gmap strings list fin_maps pretty.
From Stdlib Require Import ZArith Lia Sorted.

(** ** Values and objects *)

Definition loc := positive.

(** The numbers of the model are the safe integers, up to 2^53 - 1 in
    absolute value: a double holds each of them exactly and prints it in
    plain decimal.  A number beyond them, or with a fraction, is no value of
    the model. *)
Definition safe_integer (n : Z) : bool := (Z.abs n <=? 9007199254740991)%Z.

(** A JavaScript value as the module can meet one: a primitive, or a
    reference to an object of the heap.  Numbers are the integers the API
    uses for identifiers and counts; the module does no arithmetic. *)
Inductive value :=
| VUndefined
| VNull
| VBool (b : bool)
| VNumber (n : Z) (safe : Is_true (safe_integer n))
| VStr (s : string)
| VRef (l : loc).

(** A number given by its digits. *)
Abbreviation VNum n := (VNumber n I).

(** An object of the heap: an array has its elements, every object has its
    named properties. *)
Record cell := Cell {
  elems : option (list value);
  props : gmap string value;
}.

Abbreviation heap := (gmap loc cell).

Inductive js_error := TypeError.

Inductive completion (A : Type) :=
| Normal (a : A)
| Throw (e : js_error).
Arguments Normal {A} a.
Arguments Throw {A} e.

(** Code that reads and writes objects and may throw: the writes made before
    a throw stay in the heap. *)
Definition js (A : Type) : Type := heap → heap * completion A.

#[global] Instance js_ret : MRet js := λ A a h, (h, Normal a).
#[global] Instance js_bind : MBind js := λ A B f m h,
  match m h with
  | (h', Normal a) => f a h'
  | (h', Throw e) => (h', Throw e)
  end.

(** [o.k]: reading a property of [undefined] or [null] throws; a primitive
    has none of the names the module reads ([documents], [questions], [id]);
    an own property missing from an object reads as [undefined]. *)
Definition get_prop (o : value) (k : string) : js value := λ h,
  match o with
  | VUndefined | VNull => (h, Throw TypeError)
  | VBool _ | VNumber _ _ | VStr _ => (h, Normal VUndefined)
  | VRef l =>
      match h !! l with
      | Some c => (h, Normal (default VUndefined (props c !! k)))
      | None => (h, Throw TypeError)
      end
  end.

(** [o.k = v] in module (strict) code: the object is updated in place;
    assigning to a property of [undefined], [null] or a primitive throws. *)
Definition set_prop (o : value) (k : string) (v : value) : js unit := λ h,
  match o with
  | VRef l =>
      match h !! l with
      | Some c => (<[l := Cell (elems c) (<[k := v]> (props c))]> h, Normal ())
      | None => (h, Throw TypeError)
      end
  | _ => (h, Throw TypeError)
  end.

(** The receiver of [.map(...)]: only an array has a callable [map], for
    anything else the call throws. *)
Definition array_elems (o : value) : js (list value) := λ h,
  match o with
  | VRef l =>
      match h !! l with
      | Some (Cell (Some vs) _) => (h, Normal vs)
      | _ => (h, Throw TypeError)
      end
  | _ => (h, Throw TypeError)
  end.

(** A new array, at a location the heap does not use yet. *)
Definition alloc_array (vs : list value) : js value := λ h,
  let l := fresh (dom h) in
  (<[l := Cell (Some vs) ∅]> h, Normal (VRef l)).

(** [Array.prototype.map] with a callback that returns one value per
    element, applied from left to right. *)
Fixpoint array_map (f : value → js value) (vs : list value) : js (list value) :=
  match vs with
  | [] => mret []
  | v :: vs' => w ← f v; ws ← array_map f vs'; mret (w :: ws)
  end.

(** The results of a list of conversions, up to the first that throws. *)
Fixpoint collect {A : Type} (rs : list (completion A)) : completion (list A) :=
  match rs with
  | [] => Normal []
  | Normal a :: rs' =>
      match collect rs' with
      | Normal l => Normal (a :: l)
      | Throw e => Throw e
      end
  | Throw e :: _ => Throw e
  end.

(** [Array.prototype.join] once every element has its string. *)
Definition join_results (rs : list (completion string)) : completion string :=
  match collect rs with
  | Normal parts => Normal (String.concat "," parts)
  | Throw e => Throw e
  end.

(** String conversion, as a template literal applies it.  A primitive has
    its string.  An object is converted through its [toString]: an own
    property of that name holds a value of the heap, never a function, so
    the method is skipped, [valueOf] gives back the object and the
    conversion throws.  Without it, a plain object prints as
    [[object Object]] and an array joins the strings of its elements with
    commas, [null] and [undefined] elements as nothing, the first element
    that cannot be converted throwing for the whole; an array with an own
    [join] property, which is no function either, prints as
    [[object Array]].  One unit of fuel per object of the heap covers every
    nesting without a cycle. *)
Fixpoint to_string_fuel (n : nat) (h : heap) (v : value) {struct n}
    : completion string :=
  match v with
  | VUndefined => Normal "undefined"
  | VNull => Normal "null"
  | VBool b => Normal (if b then "true" else "false")
  | VNumber z _ => Normal (pretty z)
  | VStr s => Normal s
  | VRef l =>
      match h !! l with
      | Some c =>
          match props c !! "toString" with
          | Some _ => Throw TypeError
          | None =>
              match elems c with
              | Some vs =>
                  match props c !! "join" with
                  | Some _ => Normal "[object Array]"
                  | None =>
                      match n with
                      | O => Normal ""
                      | S n' =>
                          join_results
                            (map (λ e, match e with
                                       | VUndefined | VNull => Normal ""
                                       | _ => to_string_fuel n' h e
                                       end) vs)
                      end
                  end
              | None => Normal "[object Object]"
              end
          end
      | None => Normal "undefined"
      end
  end.

Definition to_string (h : heap) (v : value) : completion string :=
  to_string_fuel (size h) h v.

Definition ToString (v : value) : js string := λ h, (h, to_string h v).

(** ** The callbacks of [searchSuggestions] (lines 40-54) *)

(** [(document) => { document.type = 'document'; return document; }] *)
Definition tag_document (document : value) : js value :=
  set_prop document "type" (VStr "document");;
  mret document.

(** [(question) => { question.type = 'question';
      question.url = `/questions/${question.id}`;
      question.summary = ''; return question; }] *)
Definition tag_question (question : value) : js value :=
  set_prop question "type" (VStr "question");;
  id ← get_prop question "id";
  s ← ToString id;
  set_prop question "url" (VStr ("/questions/" +:+ s));;
  set_prop question "summary" (VStr "");;
  mret question.

(** The body of the [done] callback after its log line, up to the value
    handed to [setSuggestions].  The two intermediate arrays never leave the
    callback and are kept as lists; the concatenated array is the payload
    and is allocated. *)
Definition build_suggestions (data : value) : js value :=
  documents ← get_prop data "documents";
  docs ← array_elems documents;
  docSuggestions ← array_map tag_document docs;
  questions ← get_prop data "questions";
  qs ← array_elems questions;
  questionSuggestions ← array_map tag_question qs;
  alloc_array (docSuggestions ++ questionSuggestions).

(** ** Reading a heap from outside *)

#[global] Instance value_eq_dec : EqDecision value.
Proof.
  intros v w. unfold Decision.
  destruct v as [| |b|n Hn|s|l], w as [| |b'|n' Hn'|s'|l'];
    try (left; reflexivity); try (right; discriminate).
  - destruct (decide (b = b')) as [->|Hne]; [by left|right; congruence].
  - destruct (decide (n = n')) as [->|Hne]; [|right; congruence].
    left. f_equal. apply proof_irrel.
  - destruct (decide (s = s')) as [->|Hne]; [by left|right; congruence].
  - destruct (decide (l = l')) as [->|Hne]; [by left|right; congruence].
Defined.

(** The own property [k] of the object [o] points to, if any. *)
Definition prop_of (h : heap) (o : value) (k : string) : option value :=
  match o with
  | VRef l => c ← h !! l; props c !! k
  | _ => None
  end.

(** The elements of the array held by property [k] of [o], if [o.k] is an
    array. *)
Definition array_at (h : heap) (o : value) (k : string) : option (list value) :=
  match prop_of h o k with
  | Some (VRef a) => c ← h !! a; elems c
  | _ => None
  end.

Definition is_object (h : heap) (v : value) : Prop :=
  match v with
  | VRef l => is_Some (h !! l)
  | _ => False
  end.

#[global] Instance is_object_dec (h : heap) (v : value) : Decision (is_object h v).
Proof. destruct v; simpl; apply _. Defined.

(** What the two callbacks leave of an object. *)
Definition tagged_document (c : cell) : cell :=
  Cell (elems c) (<["type" := VStr "document"]> (props c)).

Definition tagged_question (s : string) (c : cell) : cell :=
  Cell (elems c)
       (<["summary" := VStr ""]>
          (<["url" := VStr ("/questions/" +:+ s)]>
             (<["type" := VStr "question"]> (props c)))).

Definition id_of (c : cell) : value := default VUndefined (props c !! "id").

(** A question whose [type] is set and whose [id] then fails to convert. *)
Definition typed_question (c : cell) : cell :=
  Cell (elems c) (<["type" := VStr "question"]> (props c)).

(** The string of a conversion that did not throw. *)
Definition printed (r : completion string) : string :=
  match r with
  | Normal s => s
  | Throw _ => ""
  end.

(** The value converts to a string without throwing. *)
Definition converts (h : heap) (v : value) : Prop :=
  match to_string h v with
  | Normal _ => True
  | Throw _ => False
  end.

#[global] Instance converts_dec (h : heap) (v : value) : Decision (converts h v).
Proof. unfold converts. destruct (to_string h v); apply _. Defined.

(** The [id] of the entry [q], missing or not, converts to a string. *)
Definition id_converts (h : heap) (q : value) : Prop :=
  converts h (default VUndefined (prop_of h q "id")).

#[global] Instance id_converts_dec (h : heap) (q : value) : Decision (id_converts h q).
Proof. unfold id_converts. apply _. Defined.

(** What the string conversion reads of an object. *)
Definition print_view (c : cell) : option (list value) * option value * option value :=
  (elems c, props c !! "toString", props c !! "join").

(** ** Events, requests and the state of the page *)

(** Modelled from the spec: the tags of [actionTypes], of
    ../constants/AAQConstants.es6.js, eight distinct constants; an event is
    its tag with the payload the module gives it. *)
Inductive action :=
| SET_PRODUCT (product : value)
| SET_TOPIC (topic : value)
| SET_TITLE (title : value)
| SET_SUGGESTIONS (suggestions : value)
| SET_CONTENT (content : value)
| QUESTION_SUBMIT_OPTIMISTIC
| QUESTION_SUBMIT_SUCCESS
| QUESTION_SUBMIT_FAILURE (error : value).

(** The settings object handed to [$.ajax]. *)
Record request := Request {
  req_type : string;
  req_url : string;
  req_data : gmap string value;
  req_headers : list (string * string);
}.

(** Which pair of [done]/[fail] callbacks a request carries. *)
Inductive callbacks := SuggestCallbacks | SubmitCallbacks.

(** A request that was sent: when, what, and whether it was answered. *)
Record xhr := Xhr {
  xhr_time : Z;
  xhr_request : request;
  xhr_callbacks : callbacks;
  xhr_settled : bool;
}.

(** What a [fail] callback receives. *)
Record jqXHR := JqXHR { status : Z; statusText : string }.

Inductive response :=
| Done (data : value)
| Fail (err : jqXHR).

Inductive log_entry :=
| LogSuggest (data : value)
| LogSuggestError (err : jqXHR)
| LogDone (data : value).

(** The closure of the throttled function: the time of the last run, the
    due time of the pending timer, the arguments of the latest call. *)
Record throttle := Throttle {
  previous : Z;
  timeout : option Z;
  args : option value;
}.

Record state := State {
  bus : list action;            (* events posted to AAQDispatcher, oldest first *)
  xhrs : list xhr;              (* requests sent by $.ajax, oldest first *)
  console : list log_entry;     (* console.log lines *)
  uncaught : list js_error;     (* errors that left a callback *)
  objects : heap;               (* objects of the parsed response bodies *)
  draft : gmap string value;    (* QuestionEditStore.getQuestion() *)
  csrf : option string;         (* value of input[name=csrfmiddlewaretoken] *)
  clock : Z;                    (* milliseconds, as _.now() reads them *)
  throttled : throttle;         (* closure of the throttled searchSuggestions *)
}.

Definition with_bus (b : list action) (st : state) : state :=
  State b (xhrs st) (console st) (uncaught st) (objects st) (draft st)
        (csrf st) (clock st) (throttled st).
Definition with_xhrs (x : list xhr) (st : state) : state :=
  State (bus st) x (console st) (uncaught st) (objects st) (draft st)
        (csrf st) (clock st) (throttled st).
Definition with_console (c : list log_entry) (st : state) : state :=
  State (bus st) (xhrs st) c (uncaught st) (objects st) (draft st)
        (csrf st) (clock st) (throttled st).
Definition with_uncaught (u : list js_error) (st : state) : state :=
  State (bus st) (xhrs st) (console st) u (objects st) (draft st)
        (csrf st) (clock st) (throttled st).
Definition with_objects (h : heap) (st : state) : state :=
  State (bus st) (xhrs st) (console st) (uncaught st) h (draft st)
        (csrf st) (clock st) (throttled st).
Definition with_draft (d : gmap string value) (st : state) : state :=
  State (bus st) (xhrs st) (console st) (uncaught st) (objects st) d
        (csrf st) (clock st) (throttled st).
Definition with_clock (t : Z) (st : state) : state :=
  State (bus st) (xhrs st) (console st) (uncaught st) (objects st) (draft st)
        (csrf st) t (throttled st).
Definition with_throttled (t : throttle) (st : state) : state :=
  State (bus st) (xhrs st) (console st) (uncaught st) (objects st) (draft st)
        (csrf st) (clock st) t.

(** Modelled from the spec: [AAQDispatcher.dispatch], of
    ../dispatchers/AAQDispatcher.es6.js.  The dispatch bus accepts the event
    and returns nothing to the caller. *)
Definition dispatch (a : action) (st : state) : state :=
  with_bus (bus st ++ [a]) st.

(** Modelled from the spec: [QuestionEditStore.getQuestion], of
    ../stores/QuestionEditStore.es6.js.  It returns the current draft. *)
Definition getQuestion (st : state) : gmap string value := draft st.

(** Modelled from the spec: [$.ajax(settings)], a library function the
    sources do not contain.  The request leaves; its callbacks run when it
    is answered, in a later turn of the event loop. *)
Definition ajax (r : request) (cb : callbacks) (st : state) : state :=
  with_xhrs (xhrs st ++ [Xhr (clock st) r cb false]) st.

Definition console_log (e : log_entry) (st : state) : state :=
  with_console (console st ++ [e]) st.

(** ** The functions of the module *)

Definition setProduct (product : value) (st : state) : state :=
  dispatch (SET_PRODUCT product) st.

Definition setTopic (topic : value) (st : state) : state :=
  dispatch (SET_TOPIC topic) st.

Definition setSuggestions (suggestions : value) (st : state) : state :=
  dispatch (SET_SUGGESTIONS suggestions) st.

Definition setContent (content : value) (st : state) : state :=
  dispatch (SET_CONTENT content) st.

(** The settings of the suggestion request (lines 30-39). *)
Definition suggest_request (title : value) (d : gmap string value) : request :=
  {| req_type := "GET";
     req_url := "/api/2/search/suggest";
     req_data := {[ "q" := title;
                    "max_questions" := VNum 2;
                    "max_documents" := VNum 2;
                    "product" := default VUndefined (d !! "product") ]};
     req_headers := [] |}.

(** [searchSuggestions] as declared at line 29, before line 59 rebinds the
    name. *)
Definition searchSuggestions (title : value) (st : state) : state :=
  ajax (suggest_request title (getQuestion st)) SuggestCallbacks st.

(** Modelled from the spec: [_.throttle(func, wait)], a library function the
    sources do not contain.  The first call in a window runs [func] at once;
    a call within the window runs nothing, keeps its arguments as the latest
    and arms the trailing timer unless one is pending; the timer, when it
    fires, runs [func] once with the latest arguments. *)
Definition throttle_call (func : value → state → state) (wait : Z)
    (a : value) (st : state) : state :=
  let t := throttled st in
  let remaining := (wait - (clock st - previous t))%Z in
  if ((remaining <=? 0) || (wait <? remaining))%Z then
    let st1 := func a (with_throttled (Throttle (clock st) None (Some a)) st) in
    match timeout (throttled st1) with
    | None => with_throttled (Throttle (previous (throttled st1)) None None) st1
    | Some _ => st1
    end
  else
    match timeout t with
    | None =>
        with_throttled (Throttle (previous t) (Some (clock st + remaining)%Z) (Some a)) st
    | Some due =>
        with_throttled (Throttle (previous t) (Some due) (Some a)) st
    end.

(** Modelled from the spec: the trailing run of [_.throttle]. *)
Definition throttle_later (func : value → state → state) (st : state) : state :=
  let t := throttled st in
  let st1 :=
    func (default VUndefined (args t))
         (with_throttled (Throttle (clock st) None (args t)) st) in
  match timeout (throttled st1) with
  | None => with_throttled (Throttle (previous (throttled st1)) None None) st1
  | Some _ => st1
  end.

(** Line 59: [searchSuggestions = _.throttle(searchSuggestions, 500)]. *)
Definition throttled_searchSuggestions : value → state → state :=
  throttle_call searchSuggestions 500.

(** [setTitle] runs after the module is loaded, so its call reaches the
    throttled function. *)
Definition setTitle (title : value) (st : state) : state :=
  throttled_searchSuggestions title (dispatch (SET_TITLE title) st).

(** [submitQuestion] (lines 75-101).  [beforeSend] runs inside [$.ajax]
    before the request is sent: without the CSRF input [querySelector]
    returns [null], reading [.value] throws and nothing is sent. *)
Definition submitQuestion (st : state) : state * completion unit :=
  let st1 := dispatch QUESTION_SUBMIT_OPTIMISTIC st in
  let questionData := getQuestion st1 in
  match csrf st1 with
  | None => (st1, Throw TypeError)
  | Some token =>
      (ajax {| req_type := "POST";
               req_url := "/api/2/question/";
               req_data := questionData;
               req_headers := [("X-CSRFToken", token)] |} SubmitCallbacks st1,
       Normal ())
  end.

(** ** The callbacks *)

(** [.done((data) => ...)] of [searchSuggestions]. *)
Definition suggest_done (data : value) (st : state) : state :=
  let st1 := console_log (LogSuggest data) st in
  match build_suggestions data (objects st1) with
  | (h, Normal suggestions) => setSuggestions suggestions (with_objects h st1)
  | (h, Throw e) => with_uncaught (uncaught st1 ++ [e]) (with_objects h st1)
  end.

(** [.fail((err) => ...)] of [searchSuggestions]. *)
Definition suggest_fail (err : jqXHR) (st : state) : state :=
  console_log (LogSuggestError err) st.

(** [.done((...args) => ...)] of [submitQuestion]. *)
Definition submit_done (data : value) (st : state) : state :=
  dispatch QUESTION_SUBMIT_SUCCESS (console_log (LogDone data) st).

(** [.fail((err) => ...)] of [submitQuestion]. *)
Definition submit_fail (err : jqXHR) (st : state) : state :=
  dispatch (QUESTION_SUBMIT_FAILURE (VStr (statusText err))) st.

Definition settled (x : xhr) : xhr :=
  Xhr (xhr_time x) (xhr_request x) (xhr_callbacks x) true.

(** The answer to request [i] arrives: its callbacks run, once. *)
Definition settle (i : nat) (r : response) (st : state) : state :=
  match xhrs st !! i with
  | Some x =>
      if xhr_settled x then st
      else
        let st1 := with_xhrs (<[i := settled x]> (xhrs st)) st in
        match xhr_callbacks x, r with
        | SuggestCallbacks, Done data => suggest_done data st1
        | SuggestCallbacks, Fail err => suggest_fail err st1
        | SubmitCallbacks, Done data => submit_done data st1
        | SubmitCallbacks, Fail err => submit_fail err st1
        end
  | None => st
  end.

(** ** The event loop *)

Inductive input :=
| CallSetProduct (product : value)
| CallSetTopic (topic : value)
| CallSetTitle (title : value)
| CallSetSuggestions (suggestions : value)
| CallSetContent (content : value)
| CallSubmitQuestion
| Settle (i : nat) (r : response)     (* a request is answered *)
| TimerFires                          (* the event loop runs the due timer *)
| Elapse (ms : N)                     (* time passes *)
| StoreUpdate (d : gmap string value) (* the store replaces its draft *)
| HttpObject (l : loc) (c : cell).    (* the HTTP layer parses an object *)

Definition step (i : input) (st : state) : state :=
  match i with
  | CallSetProduct product => setProduct product st
  | CallSetTopic topic => setTopic topic st
  | CallSetTitle title => setTitle title st
  | CallSetSuggestions suggestions => setSuggestions suggestions st
  | CallSetContent content => setContent content st
  | CallSubmitQuestion => fst (submitQuestion st)
  | Settle i r => settle i r st
  | TimerFires =>
      match timeout (throttled st) with
      | Some due =>
          if (due <=? clock st)%Z then throttle_later searchSuggestions st else st
      | None => st
      end
  | Elapse ms => with_clock (clock st + Z.of_N ms)%Z st
  | StoreUpdate d => with_draft d st
  | HttpObject l c =>
      match objects st !! l with
      | None => with_objects (<[l := c]> (objects st)) st
      | Some _ => st
      end
  end.

Definition run (ins : list input) (st : state) : state :=
  fold_left (λ s i, step i s) ins st.

(** The page when the module has just been loaded, at time [t0]. *)
Definition init (t0 : Z) (d : gmap string value) (token : option string) : state :=
  {| bus := []; xhrs := []; console := []; uncaught := []; objects := ∅;
     draft := d; csrf := token; clock := t0;
     throttled := Throttle 0 None None |}.

#[global] Instance callbacks_eq_dec : EqDecision callbacks.
Proof. solve_decision. Defined.

(** The times at which the suggestion requests were sent, oldest first. *)
Definition suggest_times (st : state) : list Z :=
  xhr_time <$> filter (λ x, xhr_callbacks x = SuggestCallbacks) (xhrs st).

(** Two states that differ at most in the events posted. *)
Definition same_but_bus (st st' : state) : Prop :=
  xhrs st' = xhrs st ∧ console st' = console st ∧ uncaught st' = uncaught st ∧
  objects st' = objects st ∧ draft st' = draft st ∧ csrf st' = csrf st ∧
  clock st' = clock st ∧ throttled st' = throttled st.

(** ** Invariants *)

Definition is_outcome (a : action) : bool :=
  match a with
  | QUESTION_SUBMIT_SUCCESS | QUESTION_SUBMIT_FAILURE _ => true
  | _ => false
  end.

Definition is_optimistic (a : action) : bool :=
  match a with
  | QUESTION_SUBMIT_OPTIMISTIC => true
  | _ => false
  end.

Definition is_submit (x : xhr) : bool :=
  match xhr_callbacks x with
  | SubmitCallbacks => true
  | SuggestCallbacks => false
  end.

Definition count {A : Type} (p : A → bool) (l : list A) : nat :=
  length (List.filter p l).

(** As many outcome events as answered submissions, and no more submissions
    sent than optimistic events posted. *)
Definition submit_inv (st : state) : Prop :=
  count is_outcome (bus st) = count (λ x, is_submit x && xhr_settled x) (xhrs st) ∧
  (count is_submit (xhrs st) ≤ count is_optimistic (bus st))%nat.

(** [h1] is [h] with some objects changed in the properties [ks] only. *)
Definition rewritten (ks : list string) (h h1 : heap) : Prop :=
  ∀ l, ∃ f : cell → cell,
    h1 !! l = f <$> h !! l ∧
    ∀ c, elems (f c) = elems c ∧ ∀ k, k ∉ ks → props (f c) !! k = props c !! k.

(** An object of [h] is still in [h'], with the same elements and the same
    properties but for [type], [url] and [summary]. *)
Definition kept (h h' : heap) : Prop :=
  ∀ l c, h !! l = Some c →
    ∃ c', h' !! l = Some c' ∧ elems c' = elems c ∧
          ∀ k, k ∉ ["type"; "url"; "summary"] → props c' !! k = props c !! k.

(** What holds of the throttle in every state the page can reach. *)
Definition throttle_inv (st : state) : Prop :=
  (previous (throttled st) ≤ clock st)%Z ∧
  Forall (λ t, (t ≤ previous (throttled st))%Z) (suggest_times st) ∧
  StronglySorted (λ a b, (a + 500 ≤ b)%Z) (suggest_times st) ∧
  ∀ due, timeout (throttled st) = Some due →
         due = (previous (throttled st) + 500)%Z ∧ is_Some (args (throttled st)).

(** ** Sample pages *)

Definition sample_draft : gmap string value :=
  {[ "product" := VStr "firefox"; "title" := VStr "t" ]}.

Definition sample_page : state := init 1000 sample_draft (Some "token").

(** A parsed body with one document and one question. *)
Definition sample_objects : heap :=
  {[ 1%positive := Cell None {[ "documents" := VRef 2%positive;
                                "questions" := VRef 3%positive ]};
     2%positive := Cell (Some [VRef 4%positive]) ∅;
     3%positive := Cell (Some [VRef 5%positive]) ∅;
     4%positive := Cell None {[ "title" := VStr "Install Firefox";
                                "url" := VStr "/kb/install";
                                "summary" := VStr "How to install" ]};
     5%positive := Cell None {[ "id" := VNum 42; "title" := VStr "t" ]} ]}.

(** A parsed body without a [questions] array. *)
Definition sample_objects_no_questions : heap :=
  {[ 1%positive := Cell None {[ "documents" := VRef 2%positive ]};
     2%positive := Cell (Some [VRef 4%positive]) ∅;
     4%positive := Cell None {[ "title" := VStr "Install Firefox" ]} ]}.

(** The sample page after one suggestion request has left. *)
Definition sample_waiting (h : heap) : state :=
  with_objects h (setTitle (VStr "t") sample_page).

(** Three calls of [setTitle("t")] within 100ms, then the end of the
    window and the timer. *)
Definition burst : list input :=
  [CallSetTitle (VStr "t"); Elapse 50; CallSetTitle (VStr "t");
   Elapse 50; CallSetTitle (VStr "t")].

Definition burst_then_timer : list input :=
  burst ++ [Elapse 400; TimerFires].

(** Counting calls and events over a run. *)
Definition is_submit_call (inp : input) : bool :=
  match inp with
  | CallSubmitQuestion => true
  | _ => false
  end.

Definition is_title_call (inp : input) : bool :=
  match inp with
  | CallSetTitle _ => true
  | _ => false
  end.

Definition is_set_title (a : action) : bool :=
  match a with
  | SET_TITLE _ => true
  | _ => false
  end.

(** One for a trailing timer that is armed, zero otherwise. *)
Definition pending_timer (st : state) : nat :=
  match timeout (throttled st) with
  | Some _ => 1
  | None => 0
  end.

(** The event a call of one of the four forwarding functions posts. *)
Definition forwarded (inp : input) : option action :=
  match inp with
  | CallSetProduct product => Some (SET_PRODUCT product)
  | CallSetTopic topic => Some (SET_TOPIC topic)
  | CallSetSuggestions suggestions => Some (SET_SUGGESTIONS suggestions)
  | CallSetContent content => Some (SET_CONTENT content)
  | _ => None
  end.

(** Two parsed bodies in one heap. *)
Definition sample_two_bodies : heap :=
  sample_objects ∪
  {[ 7%positive := Cell None {[ "documents" := VRef 8%positive;
                                "questions" := VRef 9%positive ]};
     8%positive := Cell (Some []) ∅;
     9%positive := Cell (Some [VRef 10%positive]) ∅;
     10%positive := Cell None {[ "id" := VNum 7 ]} ]}.

(** The sample page with two suggestion requests waiting, for "t" and,
    600ms later, for "u". *)
Definition sample_two_waiting : state :=
  with_objects sample_two_bodies
    (run [CallSetTitle (VStr "t"); Elapse 600; CallSetTitle (VStr "u")] sample_page).

(** A parsed body whose [documents] array holds a [null] after a document. *)
Definition sample_objects_null_entry : heap :=
  {[ 1%positive := Cell None {[ "documents" := VRef 2%positive;
                                "questions" := VRef 3%positive ]};
     2%positive := Cell (Some [VRef 4%positive; VNull]) ∅;
     3%positive := Cell (Some []) ∅;
     4%positive := Cell None {[ "title" := VStr "Install Firefox" ]} ]}.

(** A parsed body whose first question has an object for its [id], with a
    [toString] member, before a second, ordinary question. *)
Definition sample_objects_bad_id : heap :=
  {[ 1%positive := Cell None {[ "documents" := VRef 2%positive;
                                "questions" := VRef 3%positive ]};
     2%positive := Cell (Some []) ∅;
     3%positive := Cell (Some [VRef 4%positive; VRef 5%positive]) ∅;
     4%positive := Cell None {[ "id" := VRef 6%positive ]};
     5%positive := Cell None {[ "id" := VNum 42 ]};
     6%positive := Cell None {[ "toString" := VStr "x" ]} ]}.

(** * Properties *)

(** A property name that is none of the listed ones. *)
Ltac other_key :=
  repeat (apply not_elem_of_cons; split; [discriminate|]); apply not_elem_of_nil.

(** ** Forwarding functions *)

(** C7: for every payload, each of [setProduct], [setTopic] and [setContent]
    posts exactly one event of its tag carrying that payload, in the call
    itself; it is total (no validation, no failure) and changes nothing but
    the list of posted events. *)
Theorem forwarding_posts_one_event (payload : value) (st : state) :
  (bus (setProduct payload st) = bus st ++ [SET_PRODUCT payload]
   ∧ same_but_bus st (setProduct payload st))
  ∧ (bus (setTopic payload st) = bus st ++ [SET_TOPIC payload]
     ∧ same_but_bus st (setTopic payload st))
  ∧ (bus (setContent payload st) = bus st ++ [SET_CONTENT payload]
     ∧ same_but_bus st (setContent payload st)).
Proof.
  unfold setProduct, setTopic, setContent.
  repeat split.
Qed.

(** ** The heap under the two callbacks *)

Lemma to_string_fuel_view n (h h' : heap) v :
  (∀ l, print_view <$> h !! l = print_view <$> h' !! l) →
  to_string_fuel n h v = to_string_fuel n h' v.
Proof.
  intros Hsh. revert v.
  induction n as [|n IH]; intros v;
    (destruct v as [| | | | |l]; simpl; try reflexivity);
    specialize (Hsh l);
    (destruct (h !! l) as [[e p]|], (h' !! l) as [[e' p']|]; simpl in *;
       try done);
    unfold print_view in Hsh; simpl in Hsh;
    injection Hsh as -> Hts Hj; rewrite Hts, Hj; try reflexivity.
  destruct (p' !! "toString"); [reflexivity|].
  destruct e' as [vs|]; [|reflexivity].
  destruct (p' !! "join"); [reflexivity|].
  f_equal. apply map_ext. intros e. destruct e; auto.
Qed.

Lemma view_size (h h' : heap) :
  (∀ l, print_view <$> h !! l = print_view <$> h' !! l) → size h = size h'.
Proof.
  intros Hsh. rewrite <- !size_dom. f_equal.
  apply set_eq. intros l. rewrite !elem_of_dom.
  specialize (Hsh l).
  destruct (h !! l), (h' !! l); simpl in *; simplify_eq;
    split; intros [? ?]; simplify_eq; eauto.
Qed.

(** The string conversion reads the elements of the objects and their
    [toString] and [join] properties, nothing else. *)
Lemma to_string_view (h h' : heap) v :
  (∀ l, print_view <$> h !! l = print_view <$> h' !! l) →
  to_string h v = to_string h' v.
Proof.
  intros Hsh. unfold to_string.
  rewrite (view_size h h' Hsh). by apply to_string_fuel_view.
Qed.

Lemma tagged_document_idem c :
  tagged_document (tagged_document c) = tagged_document c.
Proof. unfold tagged_document. simpl. by rewrite insert_insert_eq. Qed.

Lemma tagged_question_idem s c :
  tagged_question s (tagged_question s c) = tagged_question s c.
Proof.
  unfold tagged_question. simpl. f_equal.
  apply map_eq. intros k.
  rewrite !lookup_insert. repeat case_decide; simplify_eq; done.
Qed.

Lemma id_of_tagged_question s c : id_of (tagged_question s c) = id_of c.
Proof.
  unfold id_of, tagged_question. simpl.
  by rewrite !lookup_insert_ne.
Qed.

Lemma id_of_tagged_document c : id_of (tagged_document c) = id_of c.
Proof. unfold id_of, tagged_document. simpl. by rewrite lookup_insert_ne. Qed.

Lemma rewritten_refl ks h : rewritten ks h h.
Proof. intros l. exists id. split; [by destruct (h !! l)|done]. Qed.

Lemma rewritten_trans ks h1 h2 h3 :
  rewritten ks h1 h2 → rewritten ks h2 h3 → rewritten ks h1 h3.
Proof.
  intros H12 H23 l. destruct (H12 l) as (f & Hf & Hf'), (H23 l) as (g & Hg & Hg').
  exists (g ∘ f). split.
  - rewrite Hg, Hf. by destruct (h1 !! l).
  - intros c. simpl. split.
    + destruct (Hg' (f c)) as [-> _]. apply Hf'.
    + intros k Hk. destruct (Hg' (f c)) as [_ ->]; [|done]. by apply Hf'.
Qed.

Lemma rewritten_weaken ks ks' (h h1 : heap) :
  (∀ k, k ∉ ks' → k ∉ ks) → rewritten ks h h1 → rewritten ks' h h1.
Proof.
  intros Hks Hr l. destruct (Hr l) as (f & Hf & Hf').
  exists f. split; [done|]. intros c. destruct (Hf' c) as [He Hp].
  split; [done|]. intros k Hk. by apply Hp, Hks.
Qed.

Lemma rewritten_insert (h : heap) l c :
  h !! l = Some c → rewritten ["type"] h (<[l := tagged_document c]> h).
Proof.
  intros Hl l'. destruct (decide (l = l')) as [<-|Hne].
  - exists tagged_document. rewrite lookup_insert_eq, Hl. split; [done|].
    intros c'. split; [done|]. intros k Hk. simpl.
    rewrite lookup_insert_ne; [done|]. intros <-. apply Hk, elem_of_cons. by left.
  - exists id. rewrite lookup_insert_ne by done. split; [by destruct (h !! l')|done].
Qed.

Lemma rewritten_insert_typed (h : heap) l c :
  h !! l = Some c → rewritten ["type"] h (<[l := typed_question c]> h).
Proof.
  intros Hl l'. destruct (decide (l = l')) as [<-|Hne].
  - exists typed_question. rewrite lookup_insert_eq, Hl. split; [done|].
    intros c'. split; [done|]. intros k Hk. simpl.
    rewrite lookup_insert_ne; [done|]. intros <-. apply Hk, elem_of_cons. by left.
  - exists id. rewrite lookup_insert_ne by done. split; [by destruct (h !! l')|done].
Qed.

Lemma rewritten_insert_question (h : heap) l c s :
  h !! l = Some c →
  rewritten ["type"; "url"; "summary"] h (<[l := tagged_question s c]> h).
Proof.
  intros Hl l'. destruct (decide (l = l')) as [<-|Hne].
  - exists (tagged_question s). rewrite lookup_insert_eq, Hl. split; [done|].
    intros c'. split; [done|]. intros k Hk. simpl.
    apply not_elem_of_cons in Hk as [Hk1 Hk].
    apply not_elem_of_cons in Hk as [Hk2 Hk].
    apply not_elem_of_cons in Hk as [Hk3 _].
    by rewrite !lookup_insert_ne.
  - exists id. rewrite lookup_insert_ne by done. split; [by destruct (h !! l')|done].
Qed.

Lemma type_only_weaken (h h1 : heap) :
  rewritten ["type"] h h1 → rewritten ["type"; "url"; "summary"] h h1.
Proof.
  apply rewritten_weaken. intros k Hk.
  apply not_elem_of_cons in Hk as [Hk _].
  apply not_elem_of_cons. split; [done|apply not_elem_of_nil].
Qed.

Lemma rewritten_shape ks (h h1 : heap) :
  rewritten ks h h1 → ∀ l, elems <$> h !! l = elems <$> h1 !! l.
Proof.
  intros Hr l. destruct (Hr l) as (f & -> & Hf).
  destruct (h !! l) as [c|]; simpl; [|done]. by destruct (Hf c) as [-> _].
Qed.

Lemma rewritten_view ks (h h1 : heap) :
  "toString" ∉ ks → "join" ∉ ks →
  rewritten ks h h1 → ∀ l, print_view <$> h !! l = print_view <$> h1 !! l.
Proof.
  intros Hts Hj Hr l. destruct (Hr l) as (f & -> & Hf).
  destruct (h !! l) as [c|]; simpl; [|done].
  destruct (Hf c) as [He Hp]. unfold print_view.
  by rewrite He, !Hp.
Qed.

Lemma rewritten_dom ks (h h1 : heap) : rewritten ks h h1 → dom h1 = dom h.
Proof.
  intros Hr. apply set_eq. intros l. rewrite !elem_of_dom.
  destruct (Hr l) as (f & -> & _). by rewrite fmap_is_Some.
Qed.

Lemma rewritten_prop_of ks (h h1 : heap) o k :
  rewritten ks h h1 → k ∉ ks → prop_of h1 o k = prop_of h o k.
Proof.
  intros Hr Hk. unfold prop_of.
  destruct o as [| | | | |l]; try reflexivity.
  destruct (Hr l) as (f & -> & Hf).
  destruct (h !! l) as [c|]; simpl; [|reflexivity].
  by destruct (Hf c) as [_ ->].
Qed.

Lemma rewritten_array_at ks (h h1 : heap) o k :
  rewritten ks h h1 → k ∉ ks → array_at h1 o k = array_at h o k.
Proof.
  intros Hr Hk. unfold array_at.
  rewrite (rewritten_prop_of ks h h1) by done.
  destruct (prop_of h o k) as [[| | | | |a]|]; try reflexivity.
  destruct (Hr a) as (g & -> & Hg).
  destruct (h !! a) as [c'|]; simpl; [|reflexivity].
  by destruct (Hg c') as [-> _].
Qed.

Lemma rewritten_is_object ks (h h1 : heap) v :
  rewritten ks h h1 → is_object h1 v ↔ is_object h v.
Proof.
  intros Hr. destruct v as [| | | | |l]; simpl; try done.
  rewrite <- !elem_of_dom. by rewrite (rewritten_dom _ _ _ Hr).
Qed.

(** Tagging never changes what a value converts to. *)
Lemma to_string_rewritten (h h1 : heap) v :
  rewritten ["type"; "url"; "summary"] h h1 → to_string h1 v = to_string h v.
Proof.
  intros Hr. symmetry. apply to_string_view.
  apply (rewritten_view ["type"; "url"; "summary"]); [other_key|other_key|exact Hr].
Qed.

Lemma id_converts_rewritten (h h1 : heap) q :
  rewritten ["type"; "url"; "summary"] h h1 →
  id_converts h1 q ↔ id_converts h q.
Proof.
  intros Hr. unfold id_converts, converts.
  rewrite (rewritten_prop_of _ _ _ _ _ Hr) by other_key.
  by rewrite (to_string_rewritten _ _ _ Hr).
Qed.

Lemma objects_rewritten (h h1 : heap) vs :
  rewritten ["type"; "url"; "summary"] h h1 →
  Forall (is_object h1) vs ↔ Forall (is_object h) vs.
Proof. intros Hr. apply Forall_iff. intros v. by eapply rewritten_is_object. Qed.

Lemma ids_convert_rewritten (h h1 : heap) vs :
  rewritten ["type"; "url"; "summary"] h h1 →
  Forall (id_converts h1) vs ↔ Forall (id_converts h) vs.
Proof. intros Hr. apply Forall_iff. intros v. by apply id_converts_rewritten. Qed.

Lemma tag_document_object (h : heap) l c :
  h !! l = Some c →
  tag_document (VRef l) h = (<[l := tagged_document c]> h, Normal (VRef l)).
Proof.
  intros Hl. unfold tag_document, mbind, js_bind, set_prop.
  rewrite Hl. reflexivity.
Qed.

(** The question callback on an object: its [type] is set first; if its
    [id] converts, the url and the summary follow, if not, the conversion
    throws and the object stays with its [type] set. *)
Lemma tag_question_object (h : heap) l c :
  h !! l = Some c →
  tag_question (VRef l) h =
    match to_string h (id_of c) with
    | Normal s => (<[l := tagged_question s c]> h, Normal (VRef l))
    | Throw e => (<[l := typed_question c]> h, Throw e)
    end.
Proof.
  intros Hl. unfold tag_question, mbind, js_bind, set_prop, get_prop, ToString.
  rewrite Hl. simpl. rewrite !lookup_insert_eq. simpl.
  rewrite lookup_insert_ne by done.
  replace (to_string (<[l:=_]> h) _) with (to_string h (id_of c)).
  - destruct (to_string h (id_of c)) as [s|e]; [|reflexivity].
    rewrite ?lookup_insert_eq. simpl. rewrite ?lookup_insert_eq. simpl.
    by rewrite !insert_insert_eq.
  - symmetry. apply to_string_rewritten, type_only_weaken.
    by apply (rewritten_insert_typed h l c).
Qed.

Lemma tag_question_not_object (h : heap) v :
  ¬ is_object h v → tag_question v h = (h, Throw TypeError).
Proof.
  intros Hv. unfold tag_question, mbind, js_bind, set_prop.
  destruct v as [| | | | |l]; try reflexivity.
  destruct (h !! l) as [c|] eqn:Hl; [|reflexivity].
  destruct Hv. simpl. rewrite Hl. by eexists.
Qed.

Lemma tag_document_not_object (h : heap) v :
  ¬ is_object h v → tag_document v h = (h, Throw TypeError).
Proof.
  intros Hv. unfold tag_document, mbind, js_bind, set_prop.
  destruct v as [| | | | |l]; try reflexivity.
  destruct (h !! l) as [c|] eqn:Hl; [|reflexivity].
  destruct Hv. simpl. rewrite Hl. by eexists.
Qed.

Lemma is_object_insert (h : heap) l c c' v :
  h !! l = Some c → is_object h v → is_object (<[l := c']> h) v.
Proof.
  intros Hl. destruct v as [| | | | |l']; simpl; try done.
  intros Hv. destruct (decide (l = l')) as [<-|Hne].
  - rewrite lookup_insert_eq. by eexists.
  - by rewrite lookup_insert_ne.
Qed.

Lemma is_object_insert_inv (h : heap) l c c' v :
  h !! l = Some c → is_object (<[l := c']> h) v → is_object h v.
Proof.
  intros Hl. destruct v as [| | | | |l']; simpl; try done.
  destruct (decide (l = l')) as [<-|Hne].
  - intros _. by eexists.
  - by rewrite lookup_insert_ne.
Qed.

Lemma object_cell (h : heap) v :
  is_object h v → ∃ l c, v = VRef l ∧ h !! l = Some c.
Proof. destruct v as [| | | | |l]; try done. intros [c Hc]. eauto. Qed.

Lemma id_converts_object (h : heap) l c :
  h !! l = Some c → id_converts h (VRef l) ↔ converts h (id_of c).
Proof. intros Hl. unfold id_converts, id_of, prop_of. by rewrite Hl. Qed.

(** Mapping [tag_document] over objects: every listed object is tagged in
    place, nothing else changes, and the result lists the same references. *)
Lemma tag_documents_ok docs : ∀ h : heap,
  Forall (is_object h) docs →
  ∃ h' : heap,
    array_map tag_document docs h = (h', Normal docs) ∧
    ∀ l, h' !! l =
         (λ c, if decide (VRef l ∈ docs) then tagged_document c else c) <$> h !! l.
Proof.
  induction docs as [|v vs IH]; intros h Hobj.
  - exists h. split; [done|]. intros l.
    by destruct (h !! l).
  - apply Forall_cons in Hobj as [Hv Hvs].
    destruct v as [| | | | |l]; try done. destruct Hv as [c Hc].
    destruct (IH (<[l := tagged_document c]> h)) as (h' & Hrun & Hh').
    { eapply Forall_impl; [exact Hvs|]. intros v. by eapply is_object_insert. }
    exists h'. split.
    + simpl. unfold mbind, js_bind.
      rewrite (tag_document_object _ _ _ Hc), Hrun. reflexivity.
    + intros l'. rewrite Hh'. destruct (decide (l = l')) as [<-|Hne].
      * rewrite lookup_insert_eq, Hc. simpl. f_equal.
        rewrite (decide_True (P := VRef l ∈ VRef l :: vs)) by (apply elem_of_cons; by left).
        case_decide; [apply tagged_document_idem | done].
      * rewrite lookup_insert_ne by done.
        destruct (h !! l') as [c'|]; simpl; [|done]. f_equal.
        destruct (decide (VRef l' ∈ vs)) as [Hin|Hin].
        -- rewrite decide_True; [done|]. apply elem_of_cons; by right.
        -- rewrite decide_False; [done|].
           intros [?|?]%elem_of_cons; [congruence|done].
Qed.

(** Mapping [tag_question] over objects whose ids convert: every listed
    object gets its type, its url, made from its own id, and a blank
    summary. *)
Lemma tag_questions_ok qs : ∀ h : heap,
  Forall (is_object h) qs →
  Forall (id_converts h) qs →
  ∃ h' : heap,
    array_map tag_question qs h = (h', Normal qs) ∧
    ∀ l, h' !! l =
         (λ c, if decide (VRef l ∈ qs)
               then tagged_question (printed (to_string h (id_of c))) c else c)
           <$> h !! l.
Proof.
  induction qs as [|v vs IH]; intros h Hobj Hids.
  - exists h. split; [done|]. intros l.
    by destruct (h !! l).
  - apply Forall_cons in Hobj as [Hv Hvs].
    apply Forall_cons in Hids as [Hid Hids].
    destruct v as [| | | | |l]; try done. destruct Hv as [c Hc].
    apply (id_converts_object _ _ _ Hc) in Hid. unfold converts in Hid.
    destruct (to_string h (id_of c)) as [s|e] eqn:Hs; [|done].
    pose proof (rewritten_insert_question h l c s Hc) as Hrw.
    destruct (IH (<[l := tagged_question s c]> h)) as (h' & Hrun & Hh').
    { eapply Forall_impl; [exact Hvs|]. intros v. by eapply is_object_insert. }
    { by apply (ids_convert_rewritten _ _ _ Hrw). }
    exists h'. split.
    + simpl. unfold mbind, js_bind.
      rewrite (tag_question_object _ _ _ Hc), Hs, Hrun. reflexivity.
    + intros l'. rewrite Hh'. destruct (decide (l = l')) as [<-|Hne].
      * rewrite lookup_insert_eq, Hc. simpl. f_equal.
        rewrite (decide_True (P := VRef l ∈ VRef l :: vs)) by (apply elem_of_cons; by left).
        rewrite Hs. simpl. case_decide; [|done].
        rewrite id_of_tagged_question, (to_string_rewritten _ _ _ Hrw), Hs. simpl.
        apply tagged_question_idem.
      * rewrite lookup_insert_ne by done.
        destruct (h !! l') as [c'|]; simpl; [|done]. f_equal.
        rewrite (to_string_rewritten _ _ _ Hrw).
        destruct (decide (VRef l' ∈ vs)) as [Hin|Hin].
        -- rewrite decide_True; [done|]. apply elem_of_cons; by right.
        -- rewrite decide_False; [done|].
           intros [?|?]%elem_of_cons; [congruence|done].
Qed.

Lemma get_array_bind {A : Type} (k : string) (data : value) (h : heap)
    (f : list value → js A) :
  (v ← get_prop data k; vs ← array_elems v; f vs) h =
  match array_at h data k with
  | Some vs => f vs h
  | None => (h, Throw TypeError)
  end.
Proof.
  unfold mbind, js_bind, get_prop, array_elems, array_at, prop_of.
  destruct data as [| | | | |l]; simpl; try reflexivity.
  destruct (h !! l) as [c|]; simpl; [|reflexivity].
  destruct (props c !! k) as [[| | | | |a]|]; simpl; try reflexivity.
  destruct (h !! a) as [[[vs|] p]|]; reflexivity.
Qed.

(** Whether the callback throws on the way or not, [tag_document] over any
    list only rewrites [type] properties. *)
Lemma tag_documents_rewritten docs : ∀ h : heap,
  rewritten ["type"] h (array_map tag_document docs h).1.
Proof.
  induction docs as [|v vs IH]; intros h; simpl.
  - apply rewritten_refl.
  - unfold mbind, js_bind.
    destruct v as [| | | | |l]; try apply rewritten_refl.
    destruct (h !! l) as [c|] eqn:Hl.
    + rewrite (tag_document_object _ _ _ Hl).
      eapply rewritten_trans; [by apply rewritten_insert|].
      specialize (IH (<[l := tagged_document c]> h)).
      by destruct (array_map tag_document vs _) as [h' [ws|e]].
    + unfold tag_document, mbind, js_bind, set_prop. rewrite Hl.
      apply rewritten_refl.
Qed.

(** Whether it throws on the way or not, [tag_question] over any list only
    rewrites [type], [url] and [summary] properties. *)
Lemma tag_questions_rewritten qs : ∀ h : heap,
  rewritten ["type"; "url"; "summary"] h (array_map tag_question qs h).1.
Proof.
  induction qs as [|v vs IH]; intros h; simpl.
  - apply rewritten_refl.
  - unfold mbind, js_bind.
    destruct (decide (is_object h v)) as [Hv|Hv].
    + destruct (object_cell _ _ Hv) as (l & c & -> & Hl).
      rewrite (tag_question_object _ _ _ Hl).
      destruct (to_string h (id_of c)) as [s|e].
      * eapply rewritten_trans; [by apply rewritten_insert_question|].
        specialize (IH (<[l := tagged_question s c]> h)).
        by destruct (array_map tag_question vs _) as [h' [ws|e]].
      * simpl. by apply type_only_weaken, rewritten_insert_typed.
    + rewrite (tag_question_not_object _ _ Hv). apply rewritten_refl.
Qed.

(** The callback body on a response that has its two arrays. *)
Lemma build_suggestions_arrays (h : heap) data docs qs :
  array_at h data "documents" = Some docs →
  array_at h data "questions" = Some qs →
  build_suggestions data h =
    match array_map tag_document docs h with
    | (h1, Normal ds) =>
        match array_map tag_question qs h1 with
        | (h2, Normal qs') => alloc_array (ds ++ qs') h2
        | (h2, Throw e) => (h2, Throw e)
        end
    | (h1, Throw e) => (h1, Throw e)
    end.
Proof.
  intros Hd Hq. unfold build_suggestions. rewrite get_array_bind, Hd.
  unfold mbind at 1, js_bind at 1.
  pose proof (tag_documents_rewritten docs h) as Hrw.
  destruct (array_map tag_document docs h) as [h1 [ds|e]]; [|reflexivity].
  simpl in Hrw. rewrite get_array_bind.
  rewrite (rewritten_array_at ["type"] h h1 _ _ Hrw) by other_key.
  rewrite Hq. unfold mbind, js_bind.
  by destruct (array_map tag_question qs h1) as [h2 [qs'|e]].
Qed.

(** The payload is built when both arrays hold objects and the ids of the
    questions convert. *)
Lemma build_suggestions_ok (h : heap) data docs qs :
  array_at h data "documents" = Some docs →
  array_at h data "questions" = Some qs →
  Forall (is_object h) docs → Forall (is_object h) qs →
  Forall (id_converts h) qs →
  ∃ h2 : heap,
    build_suggestions data h =
      (<[fresh (dom h2) := Cell (Some (docs ++ qs)) ∅]> h2,
       Normal (VRef (fresh (dom h2)))) ∧
    ∀ l, h2 !! l =
         (λ c, let c1 := if decide (VRef l ∈ docs) then tagged_document c else c in
               if decide (VRef l ∈ qs)
               then tagged_question (printed (to_string h (id_of c))) c1 else c1)
           <$> h !! l.
Proof.
  intros Hd Hq Hdo Hqo Hids.
  destruct (tag_documents_ok docs h Hdo) as (h1 & Hrun1 & Hh1).
  assert (Hret : rewritten ["type"; "url"; "summary"] h h1).
  { pose proof (tag_documents_rewritten docs h) as Hr. rewrite Hrun1 in Hr.
    by apply type_only_weaken. }
  destruct (tag_questions_ok qs h1) as (h2 & Hrun2 & Hh2).
  { by apply (objects_rewritten _ _ _ Hret). }
  { by apply (ids_convert_rewritten _ _ _ Hret). }
  exists h2. split.
  - by rewrite (build_suggestions_arrays _ _ _ _ Hd Hq), Hrun1, Hrun2.
  - intros l. rewrite Hh2, Hh1.
    destruct (h !! l) as [c|]; simpl; [|done]. f_equal.
    rewrite (to_string_rewritten _ _ _ Hret).
    case_decide; [|done]. f_equal. f_equal.
    case_decide; [|done]. by rewrite id_of_tagged_document.
Qed.

Lemma lookup_below_fresh (h : heap) l c :
  is_Some (h !! l) → <[fresh (dom h) := c]> h !! l = h !! l.
Proof.
  intros Hl. apply lookup_insert_ne. intros <-.
  apply (is_fresh (dom h)). by apply elem_of_dom.
Qed.

Lemma prop_of_below_fresh (h : heap) o k c v :
  prop_of h o k = Some v → prop_of (<[fresh (dom h) := c]> h) o k = Some v.
Proof.
  unfold prop_of. destruct o as [| | | | |l]; try done.
  destruct (h !! l) as [c'|] eqn:Hl; [|done].
  rewrite lookup_below_fresh by (by rewrite Hl). by rewrite Hl.
Qed.

Lemma array_at_below_fresh (h : heap) o k c vs :
  array_at h o k = Some vs → array_at (<[fresh (dom h) := c]> h) o k = Some vs.
Proof.
  unfold array_at. destruct (prop_of h o k) as [v|] eqn:Hp; [|done].
  rewrite (prop_of_below_fresh _ _ _ c _ Hp).
  destruct v as [| | | | |a]; try done.
  destruct (h !! a) as [c'|] eqn:Ha; [|done].
  rewrite lookup_below_fresh by (by rewrite Ha). by rewrite Ha.
Qed.

(** The [done] callback on a body whose two arrays hold objects, the ids of
    the questions converting: the heap before the payload is allocated, and
    the resulting state. *)
Lemma suggest_done_ok (st : state) data docs qs :
  array_at (objects st) data "documents" = Some docs →
  array_at (objects st) data "questions" = Some qs →
  Forall (is_object (objects st)) docs →
  Forall (is_object (objects st)) qs →
  Forall (id_converts (objects st)) qs →
  ∃ h2 : heap,
    suggest_done data st =
      setSuggestions (VRef (fresh (dom h2)))
        (with_objects (<[fresh (dom h2) := Cell (Some (docs ++ qs)) ∅]> h2)
           (console_log (LogSuggest data) st)) ∧
    rewritten ["type"; "url"; "summary"] (objects st) h2 ∧
    ∀ l, h2 !! l =
         (λ c, let c1 := if decide (VRef l ∈ docs) then tagged_document c else c in
               if decide (VRef l ∈ qs)
               then tagged_question (printed (to_string (objects st) (id_of c))) c1
               else c1)
           <$> objects st !! l.
Proof.
  intros Hd Hq Hdo Hqo Hids.
  destruct (build_suggestions_ok _ _ _ _ Hd Hq Hdo Hqo Hids) as (h2 & Hrun & Hh2).
  exists h2. split; [|split; [|exact Hh2]].
  - unfold suggest_done. simpl. by rewrite Hrun.
  - intros l. eexists. split; [apply Hh2|].
    intros c. simpl. split.
    + by repeat case_decide.
    + intros k Hk.
      apply not_elem_of_cons in Hk as [Hk1 Hk].
      apply not_elem_of_cons in Hk as [Hk2 Hk].
      apply not_elem_of_cons in Hk as [Hk3 _].
      repeat case_decide; simpl; by rewrite ?lookup_insert_ne.
Qed.

Lemma settle_pending (st : state) i x r :
  xhrs st !! i = Some x → xhr_settled x = false →
  settle i r st =
    let st1 := with_xhrs (<[i := settled x]> (xhrs st)) st in
    match xhr_callbacks x, r with
    | SuggestCallbacks, Done data => suggest_done data st1
    | SuggestCallbacks, Fail err => suggest_fail err st1
    | SubmitCallbacks, Done data => submit_done data st1
    | SubmitCallbacks, Fail err => submit_fail err st1
    end.
Proof. intros Hx Hs. unfold settle. by rewrite Hx, Hs. Qed.

(** The same through [settle], for a suggestion request not yet answered. *)
Lemma settle_suggest_ok (st : state) i x data docs qs :
  xhrs st !! i = Some x →
  xhr_callbacks x = SuggestCallbacks →
  xhr_settled x = false →
  array_at (objects st) data "documents" = Some docs →
  array_at (objects st) data "questions" = Some qs →
  Forall (is_object (objects st)) docs →
  Forall (is_object (objects st)) qs →
  Forall (id_converts (objects st)) qs →
  ∃ h2 : heap,
    settle i (Done data) st =
      setSuggestions (VRef (fresh (dom h2)))
        (with_objects (<[fresh (dom h2) := Cell (Some (docs ++ qs)) ∅]> h2)
           (console_log (LogSuggest data)
              (with_xhrs (<[i := settled x]> (xhrs st)) st))) ∧
    rewritten ["type"; "url"; "summary"] (objects st) h2 ∧
    ∀ l, h2 !! l =
         (λ c, let c1 := if decide (VRef l ∈ docs) then tagged_document c else c in
               if decide (VRef l ∈ qs)
               then tagged_question (printed (to_string (objects st) (id_of c))) c1
               else c1)
           <$> objects st !! l.
Proof.
  intros Hx Hcb Hs Hd Hq Hdo Hqo Hids.
  destruct (suggest_done_ok (with_xhrs (<[i := settled x]> (xhrs st)) st)
              data docs qs Hd Hq Hdo Hqo Hids) as (h2 & Hrun & Hrw & Hh2).
  exists h2. split; [|by split].
  by rewrite (settle_pending _ _ _ _ Hx Hs), Hcb.
Qed.

(** What the callback gives a listed question, read off the posted state. *)
Lemma settle_question_props (st : state) i x data docs qs q :
  xhrs st !! i = Some x →
  xhr_callbacks x = SuggestCallbacks →
  xhr_settled x = false →
  array_at (objects st) data "documents" = Some docs →
  array_at (objects st) data "questions" = Some qs →
  Forall (is_object (objects st)) docs →
  Forall (is_object (objects st)) qs →
  Forall (id_converts (objects st)) qs →
  q ∈ qs →
  let st' := settle i (Done data) st in
  ∃ s : string,
    to_string (objects st) (default VUndefined (prop_of (objects st) q "id"))
      = Normal s ∧
    prop_of (objects st') q "type" = Some (VStr "question") ∧
    prop_of (objects st') q "url" = Some (VStr ("/questions/" +:+ s)) ∧
    prop_of (objects st') q "summary" = Some (VStr "").
Proof.
  intros Hx Hcb Hs Hd Hq Hdo Hqo Hids Hin st'.
  destruct (settle_suggest_ok st i x data docs qs) as (h2 & Hrun & Hrw & Hh2);
    try done.
  unfold st'. rewrite Hrun. simpl. rewrite Forall_forall in Hqo, Hids.
  destruct (object_cell _ _ (Hqo q Hin)) as (lq & c & -> & Hc).
  pose proof (Hids _ Hin) as Hid.
  apply (id_converts_object _ _ _ Hc) in Hid. unfold converts in Hid.
  destruct (to_string (objects st) (id_of c)) as [s|e] eqn:Hstr; [|done].
  exists s. split.
  { unfold prop_of. rewrite Hc. exact Hstr. }
  repeat split; apply prop_of_below_fresh; unfold prop_of;
    rewrite Hh2, Hc; simpl; rewrite (decide_True (P := VRef lq ∈ qs)) by done;
    rewrite Hstr; simpl.
  - rewrite !lookup_insert_ne by done. apply lookup_insert_eq.
  - rewrite lookup_insert_ne by done. apply lookup_insert_eq.
  - apply lookup_insert_eq.
Qed.

(** The string of a value that is no object. *)
Lemma to_string_primitive (h : heap) v :
  (∀ l, v ≠ VRef l) → to_string h v = to_string_fuel 0 ∅ v.
Proof.
  intros Hv. unfold to_string.
  destruct v as [| | | | |l]; [| | | | |by destruct (Hv l)];
    by destruct (size h).
Qed.

(** The string of an id that converts, case by case: a primitive has the
    string the language gives it, an object the one [to_string] computes. *)
Lemma id_string_cases (h : heap) q s :
  to_string h (default VUndefined (prop_of h q "id")) = Normal s →
  match prop_of h q "id" with
  | None | Some VUndefined => s = "undefined"
  | Some VNull => s = "null"
  | Some (VBool b) => s = if b then "true" else "false"
  | Some (VNumber n _) => s = pretty n
  | Some (VStr t) => s = t
  | Some (VRef r) => to_string h (VRef r) = Normal s
  end.
Proof.
  destruct (prop_of h q "id") as [[| |b|n Hn|t|r]|]; simpl;
    try (rewrite to_string_primitive by done; simpl; congruence).
  done.
Qed.

(** ** Successful suggestion responses *)

(** C1: when the response to a suggestion request holds a [documents] array
    of N objects and a [questions] array of M objects, none listed in both
    (the objects of a parsed body are distinct), and the id of every
    question converts to a string, the callback posts exactly one
    [SET_SUGGESTIONS] event; its payload is an array of the N documents
    followed by the M questions (N+M entries); every document has type
    "document"; every question has type "question", summary "" and url
    "/questions/" followed by its id: the decimal digits of a number, a
    string itself, "undefined" for a question without id, "null", "true" or
    "false" for those, and for an id that is itself an object what its
    string conversion gives. *)
Theorem suggestions_posted (st : state) (i : nat) (x : xhr) (data : value)
    (docs qs : list value) :
  xhrs st !! i = Some x →
  xhr_callbacks x = SuggestCallbacks →
  xhr_settled x = false →
  array_at (objects st) data "documents" = Some docs →
  array_at (objects st) data "questions" = Some qs →
  Forall (is_object (objects st)) docs →
  Forall (is_object (objects st)) qs →
  Forall (id_converts (objects st)) qs →
  Forall (λ d, d ∉ qs) docs →
  let st' := settle i (Done data) st in
  ∃ l : loc,
    bus st' = bus st ++ [SET_SUGGESTIONS (VRef l)] ∧
    elems <$> objects st' !! l = Some (Some (docs ++ qs)) ∧
    length (docs ++ qs) = (length docs + length qs)%nat ∧
    (∀ d, d ∈ docs → prop_of (objects st') d "type" = Some (VStr "document")) ∧
    (∀ q, q ∈ qs →
       prop_of (objects st') q "type" = Some (VStr "question") ∧
       prop_of (objects st') q "summary" = Some (VStr "") ∧
       ∃ s : string,
         prop_of (objects st') q "url" = Some (VStr ("/questions/" +:+ s)) ∧
         match prop_of (objects st) q "id" with
         | None | Some VUndefined => s = "undefined"
         | Some VNull => s = "null"
         | Some (VBool b) => s = if b then "true" else "false"
         | Some (VNumber n _) => s = pretty n
         | Some (VStr t) => s = t
         | Some (VRef r) => to_string (objects st) (VRef r) = Normal s
         end).
Proof.
  intros Hx Hcb Hs Hd Hq Hdo Hqo Hids Hdisj st'.
  destruct (settle_suggest_ok st i x data docs qs) as (h2 & Hst' & _ & Hh2);
    try done.
  exists (fresh (dom h2)). split; [|split; [|split; [|split]]].
  - unfold st'. by rewrite Hst'.
  - unfold st'. rewrite Hst'. simpl. by rewrite lookup_insert_eq.
  - apply length_app.
  - intros d Hin. unfold st'. rewrite Hst'. simpl.
    rewrite Forall_forall in Hdo, Hdisj.
    destruct (object_cell _ _ (Hdo d Hin)) as (ld & c & -> & Hc).
    apply prop_of_below_fresh. unfold prop_of. rewrite Hh2, Hc. simpl.
    rewrite (decide_False (P := VRef ld ∈ qs)) by (by apply Hdisj).
    rewrite (decide_True (P := VRef ld ∈ docs)) by done.
    apply lookup_insert_eq.
  - intros q Hin.
    destruct (settle_question_props st i x data docs qs q)
      as (s & Hstr & Hty & Hurl & Hsum); try done.
    split; [exact Hty|]. split; [exact Hsum|].
    exists s. split; [exact Hurl|]. by apply id_string_cases.
Qed.

Lemma suggestions_posted_witness :
  let st := sample_waiting sample_objects in
  let st' := settle 0 (Done (VRef 1%positive)) st in
  ∃ l : loc,
    bus st' = bus st ++ [SET_SUGGESTIONS (VRef l)] ∧
    elems <$> objects st' !! l = Some (Some [VRef 4%positive; VRef 5%positive]) ∧
    prop_of (objects st') (VRef 4%positive) "type" = Some (VStr "document") ∧
    prop_of (objects st') (VRef 5%positive) "type" = Some (VStr "question") ∧
    prop_of (objects st') (VRef 5%positive) "summary" = Some (VStr "") ∧
    prop_of (objects st') (VRef 5%positive) "url" = Some (VStr "/questions/42").
Proof.
  intros st st'.
  destruct (suggestions_posted st 0
              (Xhr 1000 (suggest_request (VStr "t") sample_draft) SuggestCallbacks false)
              (VRef 1%positive) [VRef 4%positive] [VRef 5%positive])
    as (l & Hbus & Hpayload & _ & Hdocs & Hqs).
  - vm_compute. reflexivity.
  - reflexivity.
  - reflexivity.
  - vm_compute. reflexivity.
  - vm_compute. reflexivity.
  - apply (bool_decide_unpack _). vm_compute. exact I.
  - apply (bool_decide_unpack _). vm_compute. exact I.
  - apply (bool_decide_unpack _). vm_compute. exact I.
  - apply (bool_decide_unpack _). vm_compute. exact I.
  - exists l. split; [exact Hbus|]. split; [exact Hpayload|].
    split; [apply Hdocs, elem_of_cons; by left|].
    destruct (Hqs (VRef 5%positive)) as (Hty & Hsum & s & Hurl & Hid).
    { apply elem_of_cons. by left. }
    split; [exact Hty|]. split; [exact Hsum|].
    vm_compute in Hid. subst s. exact Hurl.
Defined.

Example sample_question_url :
  prop_of (objects (settle 0 (Done (VRef 1%positive)) (sample_waiting sample_objects)))
          (VRef 5%positive) "url" = Some (VStr "/questions/42").
Proof. vm_compute. reflexivity. Qed.

Example array_id_url :
  to_string {[ 1%positive := Cell (Some [VNum 1; VNull; VStr "a"]) ∅ ]}
            (VRef 1%positive) = Normal "1,,a".
Proof. vm_compute. reflexivity. Qed.

(** An id with a [toString] member does not convert: the callback stops at
    the first question, after setting its type; nothing is posted and the
    second question is not reached. *)
Example bad_id_stops_tagging :
  let st := sample_waiting sample_objects_bad_id in
  let st' := settle 0 (Done (VRef 1%positive)) st in
  to_string (objects st) (VRef 6%positive) = Throw TypeError ∧
  bus st' = bus st ∧
  uncaught st' = [TypeError] ∧
  prop_of (objects st') (VRef 4%positive) "type" = Some (VStr "question") ∧
  prop_of (objects st') (VRef 4%positive) "url" = None ∧
  prop_of (objects st') (VRef 5%positive) "type" = None.
Proof. vm_compute. repeat split. Qed.

(** C5, as the code has it: a document of a posted payload has type
    "document" and keeps every other property, its summary included, as the
    response carried it; the callback writes no summary on a document.  Only
    the question records get summary "" and the url derived from their id. *)
Theorem document_fields_kept (st : state) (i : nat) (x : xhr) (data : value)
    (docs qs : list value) :
  xhrs st !! i = Some x →
  xhr_callbacks x = SuggestCallbacks →
  xhr_settled x = false →
  array_at (objects st) data "documents" = Some docs →
  array_at (objects st) data "questions" = Some qs →
  Forall (is_object (objects st)) docs →
  Forall (is_object (objects st)) qs →
  Forall (id_converts (objects st)) qs →
  Forall (λ d, d ∉ qs) docs →
  let st' := settle i (Done data) st in
  ∃ l : loc,
    bus st' = bus st ++ [SET_SUGGESTIONS (VRef l)] ∧
    elems <$> objects st' !! l = Some (Some (docs ++ qs)) ∧
    (∀ d, d ∈ docs →
      prop_of (objects st') d "type" = Some (VStr "document") ∧
      prop_of (objects st') d "summary" = prop_of (objects st) d "summary" ∧
      ∀ k, k ≠ "type" → prop_of (objects st') d k = prop_of (objects st) d k) ∧
    (∀ q, q ∈ qs →
      prop_of (objects st') q "type" = Some (VStr "question") ∧
      prop_of (objects st') q "summary" = Some (VStr "") ∧
      (∀ n safe, prop_of (objects st) q "id" = Some (VNumber n safe) →
         prop_of (objects st') q "url" = Some (VStr ("/questions/" +:+ pretty n))) ∧
      (∀ t, prop_of (objects st) q "id" = Some (VStr t) →
         prop_of (objects st') q "url" = Some (VStr ("/questions/" +:+ t)))).
Proof.
  intros Hx Hcb Hs Hd Hq Hdo Hqo Hids Hdisj st'.
  destruct (settle_suggest_ok st i x data docs qs) as (h2 & Hst' & _ & Hh2);
    try done.
  exists (fresh (dom h2)). split; [|split; [|split]].
  - unfold st'. by rewrite Hst'.
  - unfold st'. rewrite Hst'. simpl. by rewrite lookup_insert_eq.
  - unfold st'. rewrite Hst'. simpl.
    intros d Hin. rewrite Forall_forall in Hdo, Hdisj.
    destruct (object_cell _ _ (Hdo d Hin)) as (ld & c & -> & Hc).
    assert (Hprops : ∀ k, prop_of (<[fresh (dom h2) := Cell (Some (docs ++ qs)) ∅]> h2)
                            (VRef ld) k = <["type" := VStr "document"]> (props c) !! k).
    { intros k. unfold prop_of.
      rewrite lookup_below_fresh by (rewrite Hh2, Hc; by eexists).
      rewrite Hh2, Hc. simpl.
      rewrite (decide_False (P := VRef ld ∈ qs)) by (by apply Hdisj).
      by rewrite (decide_True (P := VRef ld ∈ docs)) by done. }
    assert (Hkeep : ∀ k, k ≠ "type" →
              prop_of (<[fresh (dom h2) := Cell (Some (docs ++ qs)) ∅]> h2) (VRef ld) k
              = prop_of (objects st) (VRef ld) k).
    { intros k Hk. rewrite Hprops. unfold prop_of. rewrite Hc. simpl.
      by rewrite lookup_insert_ne. }
    split; [|split].
    + rewrite Hprops. apply lookup_insert_eq.
    + by apply Hkeep.
    + exact Hkeep.
  - intros q Hin.
    destruct (settle_question_props st i x data docs qs q)
      as (s & Hstr & Hty & Hurl & Hsum); try done.
    apply id_string_cases in Hstr.
    split; [exact Hty|]. split; [exact Hsum|]. split.
    + intros n safe Hid. rewrite Hid in Hstr. subst s. exact Hurl.
    + intros t Hid. rewrite Hid in Hstr. subst s. exact Hurl.
Qed.

Lemma document_fields_kept_witness :
  let st := sample_waiting sample_objects in
  let st' := settle 0 (Done (VRef 1%positive)) st in
  ∃ l : loc,
    bus st' = bus st ++ [SET_SUGGESTIONS (VRef l)] ∧
    elems <$> objects st' !! l = Some (Some [VRef 4%positive; VRef 5%positive]) ∧
    prop_of (objects st') (VRef 4%positive) "type" = Some (VStr "document") ∧
    prop_of (objects st') (VRef 4%positive) "summary"
      = prop_of (objects st) (VRef 4%positive) "summary" ∧
    prop_of (objects st') (VRef 5%positive) "summary" = Some (VStr "") ∧
    prop_of (objects st') (VRef 5%positive) "url"
      = Some (VStr ("/questions/" +:+ pretty 42%Z)).
Proof.
  intros st st'.
  destruct (document_fields_kept st 0
              (Xhr 1000 (suggest_request (VStr "t") sample_draft) SuggestCallbacks false)
              (VRef 1%positive) [VRef 4%positive] [VRef 5%positive])
    as (l & Hbus & Hpayload & Hdocs & Hqs).
  - vm_compute. reflexivity.
  - reflexivity.
  - reflexivity.
  - vm_compute. reflexivity.
  - vm_compute. reflexivity.
  - apply (bool_decide_unpack _). vm_compute. exact I.
  - apply (bool_decide_unpack _). vm_compute. exact I.
  - apply (bool_decide_unpack _). vm_compute. exact I.
  - apply (bool_decide_unpack _). vm_compute. exact I.
  - exists l. split; [exact Hbus|]. split; [exact Hpayload|].
    destruct (Hdocs (VRef 4%positive)) as (Hty & Hsum & _).
    { apply elem_of_cons. by left. }
    destruct (Hqs (VRef 5%positive)) as (_ & Hblank & Hnum & _).
    { apply elem_of_cons. by left. }
    split; [exact Hty|]. split; [exact Hsum|]. split; [exact Hblank|].
    apply (Hnum 42%Z I). vm_compute. reflexivity.
Defined.

(** C5 as stated fails: the sample response carries a document with a
    summary, and the posted payload lists that document, typed "document",
    with the summary it came with. *)
Lemma document_summary_not_blank :
  let st' := settle 0 (Done (VRef 1%positive)) (sample_waiting sample_objects) in
  bus st' = [SET_TITLE (VStr "t"); SET_SUGGESTIONS (VRef 6%positive)] ∧
  elems <$> objects st' !! 6%positive
    = Some (Some [VRef 4%positive; VRef 5%positive]) ∧
  prop_of (objects st') (VRef 4%positive) "type" = Some (VStr "document") ∧
  prop_of (objects st') (VRef 4%positive) "summary" = Some (VStr "How to install") ∧
  ¬ (∀ d, d ∈ [VRef 4%positive; VRef 5%positive] →
       prop_of (objects st') d "type" = Some (VStr "document") →
       prop_of (objects st') d "summary" = Some (VStr "")).
Proof.
  assert (Hsum : prop_of
            (objects (settle 0 (Done (VRef 1%positive)) (sample_waiting sample_objects)))
            (VRef 4%positive) "summary" = Some (VStr "How to install"))
    by (vm_compute; reflexivity).
  assert (Hty : prop_of
            (objects (settle 0 (Done (VRef 1%positive)) (sample_waiting sample_objects)))
            (VRef 4%positive) "type" = Some (VStr "document"))
    by (vm_compute; reflexivity).
  intros st'. split; [vm_compute; reflexivity|].
  split; [vm_compute; reflexivity|].
  split; [exact Hty|]. split; [exact Hsum|].
  intros Hall.
  specialize (Hall (VRef 4%positive)). unfold st' in Hall.
  rewrite Hsum in Hall. rewrite Hty in Hall.
  assert (Hin : VRef 4%positive ∈ [VRef 4%positive; VRef 5%positive])
    by (apply elem_of_cons; by left).
  specialize (Hall Hin eq_refl). discriminate Hall.
Qed.

(** ** Responses without the two arrays *)

Lemma build_suggestions_throws (h : heap) data :
  array_at h data "documents" = None ∨ array_at h data "questions" = None →
  ∃ h' : heap, build_suggestions data h = (h', Throw TypeError).
Proof.
  intros Hnone. unfold build_suggestions. rewrite get_array_bind.
  destruct (array_at h data "documents") as [docs|] eqn:Hd; [|by eexists].
  destruct Hnone as [?|Hq]; [done|].
  unfold mbind at 1, js_bind at 1.
  pose proof (tag_documents_rewritten docs h) as Hrw.
  destruct (array_map tag_document docs h) as [h1 [ds|[]]]; [|by eexists].
  simpl in Hrw. rewrite get_array_bind.
  rewrite (rewritten_array_at ["type"] h h1 _ _ Hrw) by other_key.
  rewrite Hq. by eexists.
Qed.

Lemma build_suggestions_no_questions (h : heap) data docs :
  array_at h data "documents" = Some docs →
  array_at h data "questions" = None →
  Forall (is_object h) docs →
  ∃ h1 : heap,
    build_suggestions data h = (h1, Throw TypeError) ∧
    ∀ l, h1 !! l =
         (λ c, if decide (VRef l ∈ docs) then tagged_document c else c) <$> h !! l.
Proof.
  intros Hd Hq Hdo.
  destruct (tag_documents_ok docs h Hdo) as (h1 & Hrun & Hh1).
  exists h1. split; [|exact Hh1].
  pose proof (tag_documents_rewritten docs h) as Hrw. rewrite Hrun in Hrw.
  unfold build_suggestions. rewrite get_array_bind, Hd.
  unfold mbind at 1, js_bind at 1. rewrite Hrun, get_array_bind.
  rewrite (rewritten_array_at ["type"] h h1 _ _ Hrw) by other_key.
  by rewrite Hq.
Qed.

(** C10: when the body of a successful suggestion response has no
    [documents] array or no [questions] array, the callback throws before
    it dispatches: no event is posted.  The callback tags the objects of the
    response themselves: on a body whose arrays hold objects, the ids of the
    questions converting to strings, the payload lists the very references
    of the two arrays, the heap gains the payload array and no copy of any
    entry, the response still lists the same objects, now tagged; and the
    documents of a body without a [questions] array are tagged before the
    throw. *)
Theorem missing_array_throws (st : state) (i : nat) (x : xhr) (data : value) :
  xhrs st !! i = Some x →
  xhr_callbacks x = SuggestCallbacks →
  xhr_settled x = false →
  let st' := settle i (Done data) st in
  (array_at (objects st) data "documents" = None ∨
   array_at (objects st) data "questions" = None →
     bus st' = bus st ∧ uncaught st' = uncaught st ++ [TypeError])
  ∧ (∀ docs qs,
       array_at (objects st) data "documents" = Some docs →
       array_at (objects st) data "questions" = Some qs →
       Forall (is_object (objects st)) docs →
       Forall (is_object (objects st)) qs →
       Forall (id_converts (objects st)) qs →
       ∃ l : loc,
         bus st' = bus st ++ [SET_SUGGESTIONS (VRef l)] ∧
         objects st !! l = None ∧
         elems <$> objects st' !! l = Some (Some (docs ++ qs)) ∧
         dom (objects st') = {[l]} ∪ dom (objects st) ∧
         array_at (objects st') data "documents" = Some docs ∧
         array_at (objects st') data "questions" = Some qs ∧
         (∀ q, q ∈ qs → prop_of (objects st') q "type" = Some (VStr "question")) ∧
         (∀ d, d ∈ docs → d ∉ qs →
            prop_of (objects st') d "type" = Some (VStr "document")))
  ∧ (∀ docs,
       array_at (objects st) data "documents" = Some docs →
       array_at (objects st) data "questions" = None →
       Forall (is_object (objects st)) docs →
       bus st' = bus st ∧
       ∀ d, d ∈ docs → prop_of (objects st') d "type" = Some (VStr "document")).
Proof.
  intros Hx Hcb Hs st'.
  assert (Hst' : st' = suggest_done data (with_xhrs (<[i := settled x]> (xhrs st)) st))
    by (unfold st'; by rewrite (settle_pending _ _ _ _ Hx Hs), Hcb).
  split; [|split].
  - intros Hnone.
    destruct (build_suggestions_throws _ _ Hnone) as (h' & Hrun).
    rewrite Hst'. unfold suggest_done. simpl. by rewrite Hrun.
  - intros docs qs Hd Hq Hdo Hqo Hids.
    destruct (settle_suggest_ok st i x data docs qs) as (h2 & Hrun & Hrw & Hh2);
      try done.
    exists (fresh (dom h2)). unfold st'. rewrite Hrun. simpl.
    assert (Hfresh : objects st !! fresh (dom h2) = None).
    { apply not_elem_of_dom. rewrite <- (rewritten_dom _ _ _ Hrw). apply is_fresh. }
    split; [reflexivity|]. split; [exact Hfresh|].
    split; [by rewrite lookup_insert_eq|].
    split; [by rewrite dom_insert_L, (rewritten_dom _ _ _ Hrw)|].
    split; [|split; [|split]].
    + apply array_at_below_fresh.
      by rewrite (rewritten_array_at _ _ _ _ _ Hrw) by other_key.
    + apply array_at_below_fresh.
      by rewrite (rewritten_array_at _ _ _ _ _ Hrw) by other_key.
    + intros q Hin. rewrite Forall_forall in Hqo.
      destruct (object_cell _ _ (Hqo q Hin)) as (lq & c & -> & Hc).
      apply prop_of_below_fresh. unfold prop_of. rewrite Hh2, Hc. simpl.
      rewrite (decide_True (P := VRef lq ∈ qs)) by done. simpl.
      rewrite !lookup_insert_ne by done. apply lookup_insert_eq.
    + intros d Hin Hnq. rewrite Forall_forall in Hdo.
      destruct (object_cell _ _ (Hdo d Hin)) as (ld & c & -> & Hc).
      apply prop_of_below_fresh. unfold prop_of. rewrite Hh2, Hc. simpl.
      rewrite (decide_False (P := VRef ld ∈ qs)) by done.
      rewrite (decide_True (P := VRef ld ∈ docs)) by done.
      apply lookup_insert_eq.
  - intros docs Hd Hq Hdo.
    destruct (build_suggestions_no_questions _ _ _ Hd Hq Hdo) as (h1 & Hrun & Hh1).
    rewrite Hst'. unfold suggest_done. simpl. rewrite Hrun. simpl.
    split; [reflexivity|].
    intros d Hin. rewrite Forall_forall in Hdo.
    destruct (object_cell _ _ (Hdo d Hin)) as (ld & c & -> & Hc).
    unfold prop_of. rewrite Hh1, Hc. simpl.
    rewrite (decide_True (P := VRef ld ∈ docs)) by done.
    apply lookup_insert_eq.
Qed.

Lemma missing_array_throws_witness :
  let st := sample_waiting sample_objects_no_questions in
  let st' := settle 0 (Done (VRef 1%positive)) st in
  bus st' = bus st ∧ uncaught st' = uncaught st ++ [TypeError] ∧
  prop_of (objects st') (VRef 4%positive) "type" = Some (VStr "document").
Proof.
  intros st st'.
  destruct (missing_array_throws st 0
              (Xhr 1000 (suggest_request (VStr "t") sample_draft) SuggestCallbacks false)
              (VRef 1%positive)) as (Hthrow & _ & Hpartial).
  - vm_compute. reflexivity.
  - reflexivity.
  - reflexivity.
  - destruct Hthrow as [Hbus Hun].
    { right. vm_compute. reflexivity. }
    split; [exact Hbus|]. split; [exact Hun|].
    apply (Hpartial [VRef 4%positive]).
    + vm_compute. reflexivity.
    + vm_compute. reflexivity.
    + apply (bool_decide_unpack _). vm_compute. exact I.
    + apply elem_of_cons. by left.
Defined.

(** ** Failing suggestion responses *)

(** C6: when a suggestion request fails, its callback posts no event at all;
    it writes one line to the console and leaves the objects of earlier
    payloads, the draft and everything else as they were. *)
Theorem suggest_failure_silent (st : state) (i : nat) (x : xhr) (err : jqXHR) :
  xhrs st !! i = Some x →
  xhr_callbacks x = SuggestCallbacks →
  xhr_settled x = false →
  let st' := settle i (Fail err) st in
  bus st' = bus st ∧
  console st' = console st ++ [LogSuggestError err] ∧
  objects st' = objects st ∧
  uncaught st' = uncaught st ∧
  draft st' = draft st ∧
  throttled st' = throttled st ∧
  xhrs st' = <[i := settled x]> (xhrs st).
Proof.
  intros Hx Hcb Hs st'. unfold st'.
  rewrite (settle_pending _ _ _ _ Hx Hs), Hcb. repeat split.
Qed.

Lemma suggest_failure_silent_witness :
  let st := sample_waiting sample_objects in
  let err := JqXHR 500 "Internal Server Error" in
  let st' := settle 0 (Fail err) st in
  bus st' = [SET_TITLE (VStr "t")] ∧
  console st' = [LogSuggestError err] ∧
  objects st' = sample_objects.
Proof.
  intros st err st'.
  destruct (suggest_failure_silent st 0
              (Xhr 1000 (suggest_request (VStr "t") sample_draft) SuggestCallbacks false)
              err) as (Hbus & Hlog & Hobj & _).
  - vm_compute. reflexivity.
  - reflexivity.
  - reflexivity.
  - split; [exact Hbus|]. split; [exact Hlog|exact Hobj].
Defined.

(** ** Submission *)

Lemma settle_settled (st : state) i x r :
  xhrs st !! i = Some x → xhr_settled x = true → settle i r st = st.
Proof. intros Hx Hs. unfold settle. by rewrite Hx, Hs. Qed.

Lemma xhrs_after_settle (st : state) i x r :
  xhrs st !! i = Some x → xhr_settled x = false →
  xhrs (settle i r st) = <[i := settled x]> (xhrs st).
Proof.
  intros Hx Hs. rewrite (settle_pending _ _ _ _ Hx Hs). simpl.
  destruct (xhr_callbacks x), r; try reflexivity.
  unfold suggest_done. simpl.
  by destruct (build_suggestions data (objects st)) as [h [v|e]].
Qed.

(** A request is answered at most once: a second answer runs nothing. *)
Lemma settle_twice (st : state) i r r' :
  settle i r' (settle i r st) = settle i r st.
Proof.
  destruct (xhrs st !! i) as [x|] eqn:Hx.
  - destruct (xhr_settled x) eqn:Hs.
    + by rewrite !(settle_settled _ _ _ _ Hx Hs).
    + apply (settle_settled _ _ (settled x)); [|done].
      rewrite (xhrs_after_settle _ _ _ _ Hx Hs).
      apply list_lookup_insert_eq. by eapply lookup_lt_Some.
  - unfold settle at 2. rewrite Hx. unfold settle. by rewrite Hx.
Qed.

Lemma bus_throttled (title : value) (st : state) :
  bus (throttled_searchSuggestions title st) = bus st.
Proof.
  unfold throttled_searchSuggestions, throttle_call.
  destruct (_ || _); simpl; [reflexivity|].
  by destruct (timeout (throttled st)).
Qed.

(** What the throttled function does to the list of requests: a run of
    [searchSuggestions] at the front of a window, nothing inside it. *)
Lemma xhrs_throttled (title : value) (st : state) :
  xhrs (throttled_searchSuggestions title st) =
  xhrs st ++
    (if ((500 - (clock st - previous (throttled st)) <=? 0)
         || (500 <? 500 - (clock st - previous (throttled st))))%Z
     then [Xhr (clock st) (suggest_request title (draft st)) SuggestCallbacks false]
     else []).
Proof.
  unfold throttled_searchSuggestions, throttle_call.
  destruct (_ || _); simpl.
  - reflexivity.
  - rewrite app_nil_r. by destruct (timeout (throttled st)).
Qed.

Lemma xhrs_later (st : state) :
  xhrs (throttle_later searchSuggestions st) =
  xhrs st ++
    [Xhr (clock st)
         (suggest_request (default VUndefined (args (throttled st))) (draft st))
         SuggestCallbacks false].
Proof. reflexivity. Qed.

Lemma count_app {A : Type} (p : A → bool) (l1 l2 : list A) :
  count p (l1 ++ l2) = (count p l1 + count p l2)%nat.
Proof. unfold count. by rewrite List.filter_app, length_app. Qed.

Lemma count_single {A : Type} (p : A → bool) (a : A) :
  count p [a] = if p a then 1%nat else 0%nat.
Proof. unfold count. simpl. by destruct (p a). Qed.

Lemma count_nil {A : Type} (p : A → bool) : count p [] = 0%nat.
Proof. reflexivity. Qed.

Lemma count_settled (l : list xhr) i x :
  l !! i = Some x → xhr_settled x = false →
  count (λ y, is_submit y && xhr_settled y) (<[i := settled x]> l)
  = (count (λ y, is_submit y && xhr_settled y) l + (if is_submit x then 1 else 0))%nat
  ∧ count is_submit (<[i := settled x]> l) = count is_submit l.
Proof.
  unfold count. revert i.
  induction l as [|y l IH]; intros [|i] Hx Hs; simpl in *; try done.
  - inversion Hx; subst. clear IH. unfold is_submit. simpl. rewrite Hs.
    destruct (xhr_callbacks x); simpl; split; lia.
  - destruct (IH i Hx Hs) as [IH1 IH2].
    destruct (is_submit y && xhr_settled y), (is_submit y); simpl;
      rewrite ?IH1, ?IH2; split; lia.
Qed.

Lemma submit_inv_frame (st st' : state) :
  submit_inv st → bus st' = bus st → xhrs st' = xhrs st → submit_inv st'.
Proof. unfold submit_inv. intros Hinv Hb Hx. by rewrite Hb, Hx. Qed.

Lemma submit_inv_post (st st' : state) (a : action) :
  submit_inv st → bus st' = bus st ++ [a] → xhrs st' = xhrs st →
  is_outcome a = false → submit_inv st'.
Proof.
  unfold submit_inv. intros [Ho Hs] Hb Hx Ha.
  rewrite Hb, Hx, !count_app, !count_single, Ha.
  destruct (is_optimistic a); split; lia.
Qed.

Lemma submit_inv_settle (st : state) i r :
  submit_inv st → submit_inv (settle i r st).
Proof.
  intros Hinv. destruct (xhrs st !! i) as [x|] eqn:Hx;
    [|unfold settle; by rewrite Hx].
  destruct (xhr_settled x) eqn:Hs;
    [by rewrite (settle_settled _ _ _ _ Hx Hs)|].
  destruct (count_settled _ _ _ Hx Hs) as [Hc1 Hc2].
  unfold is_submit at 3 in Hc1.
  destruct Hinv as [Ho Hle].
  pose proof (xhrs_after_settle st i x r Hx Hs) as Hxs.
  unfold submit_inv. rewrite Hxs, Hc1, Hc2.
  rewrite (settle_pending _ _ _ _ Hx Hs).
  destruct (xhr_callbacks x), r; simpl.
  - unfold suggest_done. simpl.
    destruct (build_suggestions data (objects st)) as [h [v|e]]; simpl;
      rewrite ?count_app, ?count_single; simpl; split; lia.
  - split; lia.
  - rewrite !count_app, !count_single. simpl. split; lia.
  - rewrite !count_app, !count_single. simpl. split; lia.
Qed.

Lemma submit_inv_step (inp : input) (st : state) :
  submit_inv st → submit_inv (step inp st).
Proof.
  intros Hinv. destruct inp; simpl;
    try (by eapply submit_inv_post);
    try (by eapply submit_inv_frame).
  - unfold setTitle. destruct Hinv as [Ho Hs].
    unfold submit_inv. rewrite bus_throttled, xhrs_throttled. simpl.
    rewrite !count_app, !count_single. destruct (_ || _); simpl;
      rewrite ?count_single, ?count_nil; simpl; split; lia.
  - unfold submitQuestion. simpl. destruct Hinv as [Ho Hs].
    unfold submit_inv.
    destruct (csrf st); simpl; rewrite !count_app, !count_single; simpl;
      split; lia.
  - by apply submit_inv_settle.
  - destruct (timeout (throttled st)) as [due|]; [|done].
    destruct (due <=? clock st)%Z; [|done].
    destruct Hinv as [Ho Hs]. unfold submit_inv.
    rewrite xhrs_later. simpl. rewrite !count_app, !count_single. simpl.
    split; lia.
  - destruct (objects st !! l); by eapply submit_inv_frame.
Qed.

Lemma submit_inv_run (ins : list input) (st : state) :
  submit_inv st → submit_inv (run ins st).
Proof.
  unfold run. revert st.
  induction ins as [|inp ins IH]; intros st Hinv; simpl; [done|].
  by apply IH, submit_inv_step.
Qed.

(** C2: [submitQuestion] posts [QUESTION_SUBMIT_OPTIMISTIC] in the call
    itself, and the request it sends is unanswered when the call returns, so
    neither callback has run by then; when the request succeeds, exactly one
    [QUESTION_SUBMIT_SUCCESS] follows, whatever the body; when it fails with
    status text s, exactly one [QUESTION_SUBMIT_FAILURE] with error s
    follows; a request is answered once, so over any run of the page the
    outcome events are as many as the answered submissions, and these never
    outnumber the optimistic events. *)
Theorem submit_events (st : state) :
  let st1 := (submitQuestion st).1 in
  let i := length (xhrs st) in
  bus st1 = bus st ++ [QUESTION_SUBMIT_OPTIMISTIC]
  ∧ (∀ token, csrf st = Some token →
       xhrs st1 = xhrs st ++
         [Xhr (clock st)
              (Request "POST" "/api/2/question/" (draft st) [("X-CSRFToken", token)])
              SubmitCallbacks false] ∧
       (∀ data, bus (settle i (Done data) st1)
                = bus st ++ [QUESTION_SUBMIT_OPTIMISTIC; QUESTION_SUBMIT_SUCCESS]) ∧
       (∀ err, bus (settle i (Fail err) st1)
               = bus st ++ [QUESTION_SUBMIT_OPTIMISTIC;
                            QUESTION_SUBMIT_FAILURE (VStr (statusText err))]))
  ∧ (∀ (st2 : state) j x,
       xhrs st2 !! j = Some x → xhr_callbacks x = SubmitCallbacks →
       xhr_settled x = false →
       (∀ data, bus (settle j (Done data) st2) = bus st2 ++ [QUESTION_SUBMIT_SUCCESS]) ∧
       (∀ err, bus (settle j (Fail err) st2)
               = bus st2 ++ [QUESTION_SUBMIT_FAILURE (VStr (statusText err))]))
  ∧ (∀ (st2 : state) j r r', settle j r' (settle j r st2) = settle j r st2)
  ∧ (∀ t0 d token ins,
       let st2 := run ins (init t0 d token) in
       count is_outcome (bus st2)
       = count (λ x, is_submit x && xhr_settled x) (xhrs st2)
       ∧ (count (λ x, is_submit x && xhr_settled x) (xhrs st2)
          ≤ count is_optimistic (bus st2))%nat).
Proof.
  intros st1 i. split; [|split; [|split; [|split]]].
  - unfold st1, submitQuestion. simpl. by destruct (csrf st).
  - intros token Htok.
    assert (Hx : xhrs st1 = xhrs st ++
         [Xhr (clock st)
              (Request "POST" "/api/2/question/" (draft st) [("X-CSRFToken", token)])
              SubmitCallbacks false]).
    { unfold st1, submitQuestion. simpl. by rewrite Htok. }
    assert (Hb : bus st1 = bus st ++ [QUESTION_SUBMIT_OPTIMISTIC]).
    { unfold st1, submitQuestion. simpl. by rewrite Htok. }
    assert (Hi : xhrs st1 !! i = Some
         (Xhr (clock st)
              (Request "POST" "/api/2/question/" (draft st) [("X-CSRFToken", token)])
              SubmitCallbacks false)).
    { rewrite Hx. unfold i. by rewrite lookup_app_r, Nat.sub_diag. }
    split; [exact Hx|]. split.
    + intros data. rewrite (settle_pending _ _ _ _ Hi eq_refl). simpl.
      by rewrite Hb, <- app_assoc.
    + intros err. rewrite (settle_pending _ _ _ _ Hi eq_refl). simpl.
      by rewrite Hb, <- app_assoc.
  - intros st2 j x Hx Hcb Hs. split.
    + intros data. by rewrite (settle_pending _ _ _ _ Hx Hs), Hcb.
    + intros err. by rewrite (settle_pending _ _ _ _ Hx Hs), Hcb.
  - intros st2 j r r'. apply settle_twice.
  - intros t0 d token ins st2.
    destruct (submit_inv_run ins (init t0 d token)) as [Ho Hle]; [by split|].
    split; [exact Ho|].
    etransitivity; [|exact Hle]. unfold count, st2.
    generalize (xhrs (run ins (init t0 d token))). intros l.
    induction l as [|y l IH]; simpl; [done|].
    destruct (is_submit y), (xhr_settled y); simpl; lia.
Qed.

Lemma submit_events_witness :
  let st1 := (submitQuestion sample_page).1 in
  bus st1 = [QUESTION_SUBMIT_OPTIMISTIC] ∧
  bus (settle 0 (Done VNull) st1)
    = [QUESTION_SUBMIT_OPTIMISTIC; QUESTION_SUBMIT_SUCCESS] ∧
  bus (settle 0 (Fail (JqXHR 400 "Bad Request")) st1)
    = [QUESTION_SUBMIT_OPTIMISTIC; QUESTION_SUBMIT_FAILURE (VStr "Bad Request")].
Proof.
  intros st1.
  destruct (submit_events sample_page) as (Hopt & Hsent & _).
  destruct (Hsent "token" eq_refl) as (_ & Hdone & Hfail).
  split; [exact Hopt|]. split; [exact (Hdone VNull)|].
  exact (Hfail (JqXHR 400 "Bad Request")).
Defined.

(** ** The suggestion request *)

Lemma xhrs_settle_length (st : state) i r :
  length (xhrs (settle i r st)) = length (xhrs st).
Proof.
  destruct (xhrs st !! i) as [x|] eqn:Hx.
  - destruct (xhr_settled x) eqn:Hs.
    + by rewrite (settle_settled _ _ _ _ Hx Hs).
    + by rewrite (xhrs_after_settle _ _ _ _ Hx Hs), length_insert.
  - unfold settle. by rewrite Hx.
Qed.

Lemma step_draft (inp : input) (st : state) :
  draft (step inp st) =
  match inp with StoreUpdate d => d | _ => draft st end.
Proof.
  destruct inp; simpl; try reflexivity.
  - unfold setTitle, throttled_searchSuggestions, throttle_call.
    destruct (_ || _); simpl; [reflexivity|].
    by destruct (timeout (throttled st)).
  - unfold submitQuestion. simpl. by destruct (csrf st).
  - unfold settle. destruct (xhrs st !! i) as [x|]; [|reflexivity].
    destruct (xhr_settled x); [reflexivity|].
    destruct (xhr_callbacks x), r; try reflexivity.
    unfold suggest_done. simpl.
    by destruct (build_suggestions data (objects st)) as [h [v|e]].
  - destruct (timeout (throttled st)) as [due|]; [|reflexivity].
    by destruct (due <=? clock st)%Z.
  - by destruct (objects st !! l).
Qed.

(** C8: a suggestion request is a GET to /api/2/search/suggest whose
    parameters are exactly q (the title handed to [searchSuggestions]),
    max_questions = 2, max_documents = 2 and product (the product of the
    draft the store holds when the request is sent); every request that a
    step of the page sends with the suggestion callbacks is of that form, for
    the title of the call or, from the timer, of the latest call. *)
Theorem suggestion_request_shape :
  (∀ title st,
     searchSuggestions title st =
     with_xhrs (xhrs st ++ [Xhr (clock st) (suggest_request title (getQuestion st))
                                SuggestCallbacks false]) st)
  ∧ (∀ title d,
       let r := suggest_request title d in
       req_type r = "GET" ∧ req_url r = "/api/2/search/suggest" ∧
       req_headers r = [] ∧
       req_data r !! "q" = Some title ∧
       req_data r !! "max_questions" = Some (VNum 2) ∧
       req_data r !! "max_documents" = Some (VNum 2) ∧
       req_data r !! "product" = Some (default VUndefined (d !! "product")) ∧
       dom (req_data r) = {[ "q"; "max_questions"; "max_documents"; "product" ]})
  ∧ (∀ inp st x,
       x ∈ drop (length (xhrs st)) (xhrs (step inp st)) →
       xhr_callbacks x = SuggestCallbacks →
       draft (step inp st) = draft st ∧
       x = Xhr (clock st)
             (suggest_request
                match inp with
                | CallSetTitle title => title
                | _ => default VUndefined (args (throttled st))
                end (draft st))
             SuggestCallbacks false).
Proof.
  split; [reflexivity|]. split.
  - intros title d r. repeat split.
  - intros inp st x Hin Hcb.
    destruct inp; simpl in Hin;
      try (rewrite drop_all in Hin; by apply elem_of_nil in Hin).
    + split; [apply (step_draft (CallSetTitle title))|].
      unfold setTitle in Hin. rewrite xhrs_throttled in Hin. simpl in Hin.
      rewrite drop_app_length in Hin.
      destruct (_ || _); [|by apply elem_of_nil in Hin].
      by apply list_elem_of_singleton in Hin.
    + unfold submitQuestion in Hin. simpl in Hin.
      destruct (csrf st); simpl in Hin.
      * rewrite drop_app_length in Hin.
        apply list_elem_of_singleton in Hin. by subst x.
      * rewrite drop_all in Hin. by apply elem_of_nil in Hin.
    + rewrite drop_ge in Hin by (by rewrite xhrs_settle_length).
      by apply elem_of_nil in Hin.
    + split; [apply (step_draft TimerFires)|].
      destruct (timeout (throttled st)) as [due|];
        [|rewrite drop_all in Hin; by apply elem_of_nil in Hin].
      destruct (due <=? clock st)%Z;
        [|rewrite drop_all in Hin; by apply elem_of_nil in Hin].
      rewrite xhrs_later, drop_app_length in Hin.
      by apply list_elem_of_singleton in Hin.
    + destruct (objects st !! l); simpl in Hin;
        rewrite drop_all in Hin; by apply elem_of_nil in Hin.
Qed.

Lemma suggestion_request_shape_witness :
  xhrs (step (CallSetTitle (VStr "t")) sample_page) =
    [Xhr 1000 (suggest_request (VStr "t") sample_draft) SuggestCallbacks false] ∧
  req_data (suggest_request (VStr "t") sample_draft) !! "product"
    = Some (VStr "firefox").
Proof.
  destruct suggestion_request_shape as (_ & Hshape & Hstep).
  destruct (Hstep (CallSetTitle (VStr "t")) sample_page
              (Xhr 1000 (suggest_request (VStr "t") sample_draft)
                   SuggestCallbacks false)) as [_ Hx].
  - vm_compute. apply elem_of_cons. by left.
  - reflexivity.
  - split; [vm_compute; reflexivity|].
    destruct (Hshape (VStr "t") sample_draft) as (_ & _ & _ & _ & _ & _ & Hp & _).
    exact Hp.
Defined.

(** ** The draft *)

(** C9: no function of the module and none of its callbacks writes the
    draft of the store: each leaves it as it was, and over any run of the
    page the draft is the one the store itself last put there;
    [searchSuggestions] and [submitQuestion] read it into their requests. *)
Theorem draft_never_written :
  (∀ v st,
     draft (setProduct v st) = draft st ∧ draft (setTopic v st) = draft st ∧
     draft (setTitle v st) = draft st ∧ draft (setContent v st) = draft st ∧
     draft (setSuggestions v st) = draft st ∧
     draft (searchSuggestions v st) = draft st ∧
     draft (throttled_searchSuggestions v st) = draft st)
  ∧ (∀ st, draft (submitQuestion st).1 = draft st
           ∧ draft (throttle_later searchSuggestions st) = draft st)
  ∧ (∀ i r st, draft (settle i r st) = draft st)
  ∧ (∀ ins st,
       draft (run ins st) =
       fold_left (λ d inp, match inp with StoreUpdate d' => d' | _ => d end)
                 ins (draft st))
  ∧ (∀ title st,
       last (xhrs (searchSuggestions title st)) =
       Some (Xhr (clock st) (suggest_request title (draft st)) SuggestCallbacks false))
  ∧ (∀ st token, csrf st = Some token →
       req_data <$> (xhr_request <$> last (xhrs (submitQuestion st).1))
       = Some (draft st)).
Proof.
  split; [|split; [|split; [|split; [|split]]]].
  - intros v st. repeat split.
    + apply (step_draft (CallSetTitle v)).
    + pose proof (step_draft (CallSetTitle v) st) as H. simpl in H.
      unfold setTitle in H.
      unfold throttled_searchSuggestions, throttle_call in *. simpl in *.
      destruct (_ || _); simpl; [reflexivity|].
      by destruct (timeout (throttled st)).
  - intros st. split; [apply (step_draft CallSubmitQuestion)|reflexivity].
  - intros i r st. apply (step_draft (Settle i r)).
  - intros ins. unfold run.
    induction ins as [|inp ins IH]; intros st; simpl; [reflexivity|].
    rewrite IH, step_draft. by destruct inp.
  - intros title st. unfold searchSuggestions, ajax. simpl. apply last_snoc.
  - intros st token Htok. unfold submitQuestion. simpl. rewrite Htok. simpl.
    by rewrite last_snoc.
Qed.

Lemma draft_never_written_witness :
  draft (run (burst_then_timer ++ [CallSubmitQuestion; Settle 0 (Fail (JqXHR 0 "error"))])
             sample_page) = sample_draft ∧
  req_data <$> (xhr_request <$> last (xhrs (submitQuestion sample_page).1))
    = Some sample_draft.
Proof.
  destruct draft_never_written as (_ & _ & _ & Hrun & _ & Hread).
  split.
  - rewrite Hrun. reflexivity.
  - apply (Hread sample_page "token"). reflexivity.
Defined.

(** ** The throttle around [searchSuggestions] *)

Local Open Scope Z_scope.

(** At the front of a window the request leaves at once. *)
Lemma throttled_fires (title : value) (st : state) :
  previous (throttled st) + 500 ≤ clock st →
  throttled_searchSuggestions title st =
  with_throttled (Throttle (clock st) None None)
    (with_xhrs (xhrs st ++ [Xhr (clock st) (suggest_request title (draft st))
                                SuggestCallbacks false]) st).
Proof.
  intros Hw. unfold throttled_searchSuggestions, throttle_call.
  replace (500 - (clock st - previous (throttled st)) <=? 0) with true
    by (symmetry; apply Z.leb_le; lia).
  reflexivity.
Qed.

(** Inside a window nothing leaves: the arguments are kept as the latest
    and the timer is armed for the end of the window, once. *)
Lemma throttled_within (title : value) (st : state) :
  previous (throttled st) ≤ clock st < previous (throttled st) + 500 →
  throttled_searchSuggestions title st =
  with_throttled
    (Throttle (previous (throttled st))
              (Some (default (previous (throttled st) + 500) (timeout (throttled st))))
              (Some title)) st.
Proof.
  intros Hw. unfold throttled_searchSuggestions, throttle_call.
  replace (500 - (clock st - previous (throttled st)) <=? 0) with false
    by (symmetry; apply Z.leb_gt; lia).
  replace (500 <? 500 - (clock st - previous (throttled st))) with false
    by (symmetry; apply Z.ltb_ge; lia).
  simpl. destruct (timeout (throttled st)); simpl; [reflexivity|].
  do 3 f_equal. lia.
Qed.

Lemma later_runs (st : state) :
  throttle_later searchSuggestions st =
  with_throttled (Throttle (clock st) None None)
    (with_xhrs (xhrs st ++
       [Xhr (clock st)
            (suggest_request (default VUndefined (args (throttled st))) (draft st))
            SuggestCallbacks false]) st).
Proof. reflexivity. Qed.

Lemma suggest_times_snoc (st : state) (x : xhr) :
  suggest_times (with_xhrs (xhrs st ++ [x]) st) =
  suggest_times st ++
    (if decide (xhr_callbacks x = SuggestCallbacks) then [xhr_time x] else []).
Proof.
  unfold suggest_times. simpl. rewrite filter_app, fmap_app. f_equal.
  rewrite filter_cons, filter_nil. by case_decide.
Qed.

Lemma suggest_times_settled (l : list xhr) i x :
  l !! i = Some x →
  xhr_time <$> filter (λ y, xhr_callbacks y = SuggestCallbacks) (<[i := settled x]> l)
  = xhr_time <$> filter (λ y, xhr_callbacks y = SuggestCallbacks) l.
Proof.
  revert i. induction l as [|y l IH]; intros [|i] Hx; simpl in *; try done.
  - inversion Hx; subst. rewrite !filter_cons. simpl. by case_decide.
  - rewrite !filter_cons. case_decide; rewrite ?fmap_cons, (IH i Hx); done.
Qed.

Lemma suggest_times_settle (st : state) i r :
  suggest_times (settle i r st) = suggest_times st.
Proof.
  unfold suggest_times.
  destruct (xhrs st !! i) as [x|] eqn:Hx.
  - destruct (xhr_settled x) eqn:Hs.
    + by rewrite (settle_settled _ _ _ _ Hx Hs).
    + rewrite (xhrs_after_settle _ _ _ _ Hx Hs). by apply suggest_times_settled.
  - unfold settle. by rewrite Hx.
Qed.

Lemma throttled_settle (st : state) i r :
  throttled (settle i r st) = throttled st ∧ clock (settle i r st) = clock st.
Proof.
  unfold settle. destruct (xhrs st !! i) as [x|]; [|done].
  destruct (xhr_settled x); [done|].
  destruct (xhr_callbacks x), r; try done.
  unfold suggest_done. simpl.
  by destruct (build_suggestions data (objects st)) as [h [v|e]].
Qed.

Lemma StronglySorted_snoc (R : Z → Z → Prop) (l : list Z) (t : Z) :
  StronglySorted R l → Forall (λ a, R a t) l → StronglySorted R (l ++ [t]).
Proof.
  induction 1 as [|a l Hl IH Ha]; intros Hall; simpl.
  - repeat constructor.
  - apply Forall_cons in Hall as [Hat Hall].
    constructor; [by apply IH|].
    apply Forall_app. split; [exact Ha|by constructor].
Qed.

Lemma throttle_inv_fire (st : state) (title : value) :
  throttle_inv st →
  previous (throttled st) + 500 ≤ clock st →
  throttle_inv
    (with_throttled (Throttle (clock st) None None)
       (with_xhrs (xhrs st ++ [Xhr (clock st) (suggest_request title (draft st))
                                   SuggestCallbacks false]) st)).
Proof.
  intros (Hprev & Hle & Hsorted & Htimer) Hw.
  unfold throttle_inv. simpl.
  assert (Htimes : suggest_times
            (with_throttled (Throttle (clock st) None None)
               (with_xhrs (xhrs st ++ [Xhr (clock st) (suggest_request title (draft st))
                                           SuggestCallbacks false]) st))
          = suggest_times st ++ [clock st]).
  { apply (suggest_times_snoc st
             (Xhr (clock st) (suggest_request title (draft st)) SuggestCallbacks false)). }
  rewrite Htimes. split; [lia|]. split; [|split; [|done]].
  - apply Forall_app. split; [|by repeat constructor].
    eapply Forall_impl; [exact Hle|]. simpl. intros; lia.
  - apply StronglySorted_snoc; [exact Hsorted|].
    eapply Forall_impl; [exact Hle|]. simpl. intros; lia.
Qed.

Lemma throttle_inv_frame (st st' : state) :
  throttle_inv st →
  suggest_times st' = suggest_times st →
  throttled st' = throttled st →
  clock st' = clock st →
  throttle_inv st'.
Proof.
  unfold throttle_inv. intros Hinv Ht Hth Hc. by rewrite Ht, Hth, Hc.
Qed.

Lemma throttle_inv_setTitle (st : state) (title : value) :
  throttle_inv st → throttle_inv (setTitle title st).
Proof.
  intros Hinv. unfold setTitle.
  assert (Hinv' : throttle_inv (dispatch (SET_TITLE title) st))
    by (by eapply throttle_inv_frame).
  set (st1 := dispatch (SET_TITLE title) st) in *.
  destruct (decide (previous (throttled st1) + 500 ≤ clock st1)) as [Hw|Hw].
  - rewrite throttled_fires by done. by apply throttle_inv_fire.
  - destruct Hinv' as (Hprev & Hle & Hsorted & Htimer).
    rewrite throttled_within by lia.
    unfold throttle_inv. simpl.
    split; [done|]. split; [done|]. split; [done|].
    intros due [= <-]. split; [|by eexists].
    destruct (timeout (throttled st)) as [due'|] eqn:Hto; simpl; [|done].
    by destruct (Htimer due' Hto).
Qed.

Lemma throttle_inv_step (inp : input) (st : state) :
  throttle_inv st → throttle_inv (step inp st).
Proof.
  intros Hinv. destruct inp; simpl;
    try (by eapply throttle_inv_frame).
  - by apply throttle_inv_setTitle.
  - unfold submitQuestion. simpl. destruct (csrf st) as [token|]; simpl;
      [|by eapply throttle_inv_frame].
    eapply throttle_inv_frame; [exact Hinv| |done|done].
    unfold ajax. simpl.
    rewrite (suggest_times_snoc (dispatch QUESTION_SUBMIT_OPTIMISTIC st)).
    simpl. apply app_nil_r.
  - destruct (throttled_settle st i r) as [Hth Hc].
    eapply throttle_inv_frame; eauto using suggest_times_settle.
  - destruct (timeout (throttled st)) as [due|] eqn:Hto; [|done].
    destruct (due <=? clock st) eqn:Hdue; [|done].
    apply Z.leb_le in Hdue. rewrite later_runs.
    apply throttle_inv_fire; [done|].
    destruct Hinv as (_ & _ & _ & Htimer).
    destruct (Htimer due Hto) as [-> _]. lia.
  - destruct Hinv as (Hprev & Hle & Hsorted & Htimer).
    unfold throttle_inv. simpl.
    split; [lia|]. split; [done|]. split; [done|]. exact Htimer.
  - destruct (objects st !! l); by eapply throttle_inv_frame.
Qed.

Lemma throttle_inv_run (ins : list input) (st : state) :
  throttle_inv st → throttle_inv (run ins st).
Proof.
  unfold run. revert st.
  induction ins as [|inp ins IH]; intros st Hinv; simpl; [done|].
  by apply IH, throttle_inv_step.
Qed.

Lemma throttle_inv_init (t0 : Z) d token : 0 ≤ t0 → throttle_inv (init t0 d token).
Proof.
  intros Ht0. unfold throttle_inv, init. simpl.
  repeat split; try done; constructor.
Qed.

Lemma filter_window_none (w0 : Z) (l : list Z) :
  Forall (λ b, w0 + 500 ≤ b) l → filter (λ t, w0 ≤ t < w0 + 500) l = [].
Proof.
  induction 1 as [|b l Hb _ IH]; [done|].
  rewrite filter_cons, IH. case_decide; [lia|done].
Qed.

(** Requests that are 500ms apart: no window of 500ms holds two. *)
Lemma apart_window (ts : list Z) (w0 : Z) :
  StronglySorted (λ a b, a + 500 ≤ b) ts →
  (length (filter (λ t : Z, (w0 ≤ t < w0 + 500)%Z) ts) ≤ 1)%nat.
Proof.
  induction 1 as [|a l Hl IH Ha]; [rewrite filter_nil; simpl; lia|].
  rewrite filter_cons. case_decide as Hin; [|exact IH].
  rewrite filter_window_none; [simpl; lia|].
  eapply Forall_impl; [exact Ha|]. simpl. intros; lia.
Qed.

(** C3: every call of [setTitle] posts [SET_TITLE] with its title in the
    call itself.  The search behind it is throttled over 500ms: the first
    call of a window sends the request at once; a call inside the window
    sends nothing, keeps its title as the latest and leaves one timer armed
    for the end of the window; the timer, once due, sends one request with
    the latest title and disarms; so over any run of the page two suggestion
    requests are at least 500ms apart and no window of 500ms holds two. *)
Theorem setTitle_throttled :
  (∀ title st, bus (setTitle title st) = bus st ++ [SET_TITLE title])
  ∧ (∀ title st,
       previous (throttled st) + 500 ≤ clock st →
       xhrs (setTitle title st) =
         xhrs st ++ [Xhr (clock st) (suggest_request title (draft st))
                         SuggestCallbacks false]
       ∧ throttled (setTitle title st) = Throttle (clock st) None None)
  ∧ (∀ title st,
       previous (throttled st) ≤ clock st < previous (throttled st) + 500 →
       xhrs (setTitle title st) = xhrs st
       ∧ throttled (setTitle title st) =
           Throttle (previous (throttled st))
                    (Some (default (previous (throttled st) + 500)
                                   (timeout (throttled st))))
                    (Some title))
  ∧ (∀ st due,
       timeout (throttled st) = Some due →
       (due ≤ clock st →
          xhrs (step TimerFires st) =
            xhrs st ++
              [Xhr (clock st)
                   (suggest_request (default VUndefined (args (throttled st)))
                                    (draft st))
                   SuggestCallbacks false]
          ∧ throttled (step TimerFires st) = Throttle (clock st) None None)
       ∧ (clock st < due → step TimerFires st = st))
  ∧ (∀ st, timeout (throttled st) = None → step TimerFires st = st)
  ∧ (∀ t0 d token ins,
       0 ≤ t0 →
       let st := run ins (init t0 d token) in
       StronglySorted (λ a b, a + 500 ≤ b) (suggest_times st)
       ∧ (∀ w0, (length (filter (λ t : Z, (w0 ≤ t < w0 + 500)%Z)
                                (suggest_times st)) ≤ 1)%nat)
       ∧ (∀ due, timeout (throttled st) = Some due →
                 due = previous (throttled st) + 500
                 ∧ is_Some (args (throttled st)))).
Proof.
  split; [|split; [|split; [|split; [|split]]]].
  - intros title st. unfold setTitle. by rewrite bus_throttled.
  - intros title st Hw. unfold setTitle.
    by rewrite (throttled_fires title (dispatch (SET_TITLE title) st)).
  - intros title st Hw. unfold setTitle.
    by rewrite (throttled_within title (dispatch (SET_TITLE title) st)).
  - intros st due Hto. simpl. rewrite Hto. split.
    + intros Hdue. apply Z.leb_le in Hdue. by rewrite Hdue.
    + intros Hdue. apply Z.leb_gt in Hdue. by rewrite Hdue.
  - intros st Hto. simpl. by rewrite Hto.
  - intros t0 d token ins Ht0 st.
    destruct (throttle_inv_run ins _ (throttle_inv_init t0 d token Ht0))
      as (_ & _ & Hsorted & Htimer).
    split; [exact Hsorted|]. split; [|exact Htimer].
    intros w0. by apply apart_window.
Qed.

Lemma setTitle_throttled_witness :
  xhrs (setTitle (VStr "t") sample_page) =
    [Xhr 1000 (suggest_request (VStr "t") sample_draft) SuggestCallbacks false]
  ∧ xhrs (setTitle (VStr "u") (step (Elapse 50) (setTitle (VStr "t") sample_page)))
    = xhrs (step (Elapse 50) (setTitle (VStr "t") sample_page))
  ∧ StronglySorted (λ a b, a + 500 ≤ b)
      (suggest_times (run burst_then_timer sample_page)).
Proof.
  destruct setTitle_throttled as (_ & Hfirst & Hwithin & _ & _ & Hrun).
  split; [|split].
  - apply (Hfirst (VStr "t") sample_page). vm_compute. discriminate.
  - apply (Hwithin (VStr "u") (step (Elapse 50) (setTitle (VStr "t") sample_page))).
    vm_compute. split; [discriminate|reflexivity].
  - apply (Hrun 1000 sample_draft (Some "token") burst_then_timer). lia.
Defined.

(** ** Three calls within 100ms *)

Lemma with_clock_State t b x c u o d cs t' th :
  with_clock t (State b x c u o d cs t' th) = State b x c u o d cs t th.
Proof. reflexivity. Qed.

(** C4, as the code has it: with the draft {product: "firefox", title: "t"}
    and three calls of [setTitle("t")] within 100ms, the first in its
    window, exactly one GET with q = "t" and product = "firefox" leaves
    while the calls are made, from the first call; the two later calls leave
    one timer armed for 500ms after the first call, and when it fires a
    second GET with q = "t" leaves: two requests in all. *)
Theorem burst_sends_two (t0 : Z) (d1 d2 late : N) (token : option string) :
  500 ≤ t0 →
  (d1 + d2 ≤ 100)%N →
  (500 ≤ d1 + d2 + late)%N →
  let calls := [CallSetTitle (VStr "t"); Elapse d1; CallSetTitle (VStr "t");
                Elapse d2; CallSetTitle (VStr "t")] in
  let st := run calls (init t0 sample_draft token) in
  let get := suggest_request (VStr "t") sample_draft in
  req_type get = "GET" ∧ req_url get = "/api/2/search/suggest" ∧
  req_data get !! "q" = Some (VStr "t") ∧
  req_data get !! "product" = Some (VStr "firefox") ∧
  xhrs st = [Xhr t0 get SuggestCallbacks false] ∧
  throttled st = Throttle t0 (Some (t0 + 500)) (Some (VStr "t")) ∧
  xhrs (run [Elapse late; TimerFires] st) =
    [Xhr t0 get SuggestCallbacks false;
     Xhr (t0 + Z.of_N d1 + Z.of_N d2 + Z.of_N late) get SuggestCallbacks false].
Proof.
  intros Ht0 Hd Hlate calls st get.
  split; [reflexivity|]. split; [reflexivity|].
  split; [reflexivity|]. split; [reflexivity|].
  assert (H1 : setTitle (VStr "t") (init t0 sample_draft token) =
    State [SET_TITLE (VStr "t")] [Xhr t0 get SuggestCallbacks false] [] [] ∅
          sample_draft token t0 (Throttle t0 None None)).
  { unfold setTitle. by rewrite throttled_fires by (simpl; lia). }
  assert (H2 : ∀ b t tm,
    t0 ≤ t < t0 + 500 →
    setTitle (VStr "t")
      (State b [Xhr t0 get SuggestCallbacks false] [] [] ∅
             sample_draft token t (Throttle t0 tm None)) =
    State (b ++ [SET_TITLE (VStr "t")]) [Xhr t0 get SuggestCallbacks false] [] [] ∅
          sample_draft token t
          (Throttle t0 (Some (default (t0 + 500) tm)) (Some (VStr "t")))).
  { intros b t tm Ht. unfold setTitle.
    by rewrite throttled_within by (simpl; lia). }
  assert (H3 : ∀ b t a,
    t0 ≤ t < t0 + 500 →
    setTitle (VStr "t")
      (State b [Xhr t0 get SuggestCallbacks false] [] [] ∅
             sample_draft token t (Throttle t0 (Some (t0 + 500)) a)) =
    State (b ++ [SET_TITLE (VStr "t")]) [Xhr t0 get SuggestCallbacks false] [] [] ∅
          sample_draft token t
          (Throttle t0 (Some (t0 + 500)) (Some (VStr "t")))).
  { intros b t a Ht. unfold setTitle.
    by rewrite throttled_within by (simpl; lia). }
  assert (Hst : st =
    State [SET_TITLE (VStr "t"); SET_TITLE (VStr "t"); SET_TITLE (VStr "t")]
          [Xhr t0 get SuggestCallbacks false] [] [] ∅
          sample_draft token (t0 + Z.of_N d1 + Z.of_N d2)
          (Throttle t0 (Some (t0 + 500)) (Some (VStr "t")))).
  { unfold st, calls, run. simpl fold_left.
    rewrite H1, with_clock_State. cbn [clock].
    rewrite H2 by lia. rewrite with_clock_State. cbn [clock default].
    by rewrite H3 by lia. }
  rewrite Hst. split; [reflexivity|]. split; [reflexivity|].
  unfold run. simpl.
  replace (t0 + 500 <=? t0 + Z.of_N d1 + Z.of_N d2 + Z.of_N late) with true
    by (symmetry; apply Z.leb_le; lia).
  reflexivity.
Qed.

Lemma burst_sends_two_witness :
  xhrs (run burst sample_page) =
    [Xhr 1000 (suggest_request (VStr "t") sample_draft) SuggestCallbacks false] ∧
  xhrs (run [Elapse 400; TimerFires] (run burst sample_page)) =
    [Xhr 1000 (suggest_request (VStr "t") sample_draft) SuggestCallbacks false;
     Xhr 1500 (suggest_request (VStr "t") sample_draft) SuggestCallbacks false].
Proof.
  destruct (burst_sends_two 1000 50 50 400 (Some "token"))
    as (_ & _ & _ & _ & Hone & _ & Htwo).
  - lia.
  - lia.
  - lia.
  - split; [exact Hone|exact Htwo].
Defined.

(** C4 as stated fails: over the scenario, once the window has ended and
    the timer has run, two GETs with q = "t" have left, not one. *)
Lemma burst_sends_more_than_one :
  let st := run burst_then_timer sample_page in
  xhrs st =
    [Xhr 1000 (suggest_request (VStr "t") sample_draft) SuggestCallbacks false;
     Xhr 1500 (suggest_request (VStr "t") sample_draft) SuggestCallbacks false] ∧
  req_data (suggest_request (VStr "t") sample_draft) !! "q" = Some (VStr "t") ∧
  length (filter (λ x, xhr_callbacks x = SuggestCallbacks) (xhrs st)) = 2%nat ∧
  length (filter (λ x, xhr_callbacks x = SuggestCallbacks) (xhrs st)) ≠ 1%nat.
Proof.
  intros st.
  assert (Hx : xhrs st =
    [Xhr 1000 (suggest_request (VStr "t") sample_draft) SuggestCallbacks false;
     Xhr 1500 (suggest_request (VStr "t") sample_draft) SuggestCallbacks false])
    by (vm_compute; reflexivity).
  rewrite Hx. repeat split. vm_compute. discriminate.
Qed.

(** * Further properties of the callbacks and of the functions *)

(** ** Every answer to a suggestion request *)

(** What a run of the callback body leaves: on success a heap rewritten in
    the three properties plus the payload array at a new location; on a
    throw a heap rewritten in the three properties. *)
Lemma build_suggestions_outcome (h : heap) data :
  match build_suggestions data h with
  | (h', Normal v) =>
      ∃ (h2 : heap) vs,
        rewritten ["type"; "url"; "summary"] h h2 ∧
        h' = <[fresh (dom h2) := Cell (Some vs) ∅]> h2 ∧
        v = VRef (fresh (dom h2))
  | (h', Throw e) => rewritten ["type"; "url"; "summary"] h h'
  end.
Proof.
  unfold build_suggestions. rewrite get_array_bind.
  destruct (array_at h data "documents") as [docs|]; [|apply rewritten_refl].
  unfold mbind at 1, js_bind at 1.
  pose proof (tag_documents_rewritten docs h) as Hrw1.
  apply type_only_weaken in Hrw1.
  destruct (array_map tag_document docs h) as [h1 [ds|e]]; simpl in Hrw1;
    [|exact Hrw1].
  rewrite get_array_bind.
  destruct (array_at h1 data "questions") as [qs|]; [|exact Hrw1].
  unfold mbind, js_bind.
  pose proof (tag_questions_rewritten qs h1) as Hrw2.
  destruct (array_map tag_question qs h1) as [h2 [qs'|e]]; simpl in Hrw2.
  - exists h2, (ds ++ qs'). split; [by eapply rewritten_trans|done].
  - by eapply rewritten_trans.
Qed.

(** X1: whatever the body of a successful suggestion response, the callback
    writes its console line and then does one of two things.  Either it
    posts exactly one [SET_SUGGESTIONS] event whose payload is one new
    array, or it posts nothing and a [TypeError] leaves it.  In both cases
    no object disappears and the objects that were there differ at most in
    their [type], [url] and [summary] properties; the draft, the throttle
    and the other requests are untouched. *)
Theorem suggest_answer_outcomes (st : state) (i : nat) (x : xhr) (data : value) :
  xhrs st !! i = Some x →
  xhr_callbacks x = SuggestCallbacks →
  xhr_settled x = false →
  let st' := settle i (Done data) st in
  console st' = console st ++ [LogSuggest data] ∧
  draft st' = draft st ∧
  throttled st' = throttled st ∧
  xhrs st' = <[i := settled x]> (xhrs st) ∧
  ((∃ (h2 : heap) (vs : list value),
      rewritten ["type"; "url"; "summary"] (objects st) h2 ∧
      objects st !! fresh (dom h2) = None ∧
      objects st' = <[fresh (dom h2) := Cell (Some vs) ∅]> h2 ∧
      bus st' = bus st ++ [SET_SUGGESTIONS (VRef (fresh (dom h2)))] ∧
      uncaught st' = uncaught st)
   ∨ (rewritten ["type"; "url"; "summary"] (objects st) (objects st') ∧
      dom (objects st') = dom (objects st) ∧
      bus st' = bus st ∧
      uncaught st' = uncaught st ++ [TypeError])).
Proof.
  intros Hx Hcb Hs st'. unfold st'.
  rewrite (settle_pending _ _ _ _ Hx Hs), Hcb. unfold suggest_done. simpl.
  pose proof (build_suggestions_outcome (objects st) data) as Hout.
  destruct (build_suggestions data (objects st)) as [h' [v|[]]]; simpl.
  - destruct Hout as (h2 & vs & Hrw & -> & ->).
    repeat split. left. exists h2, vs. repeat split; try done.
    apply not_elem_of_dom. rewrite <- (rewritten_dom _ _ _ Hrw). apply is_fresh.
  - repeat split. right. repeat split; try done.
    by apply (rewritten_dom _ _ _ Hout).
Qed.

Lemma suggest_answer_outcomes_witness :
  let st := sample_waiting sample_objects_null_entry in
  let st' := settle 0 (Done (VRef 1%positive)) st in
  console st' = console st ++ [LogSuggest (VRef 1%positive)] ∧
  draft st' = draft st.
Proof.
  intros st st'.
  destruct (suggest_answer_outcomes st 0
              (Xhr 1000 (suggest_request (VStr "t") sample_draft) SuggestCallbacks false)
              (VRef 1%positive)) as (Hlog & Hdraft & _).
  - vm_compute. reflexivity.
  - reflexivity.
  - reflexivity.
  - split; [exact Hlog|exact Hdraft].
Defined.

(** ** When the callback posts *)

Lemma not_Forall_cons_inv {A : Type} (P : A → Prop) (a : A) (l : list A) :
  P a → ¬ Forall P (a :: l) → ¬ Forall P l.
Proof. intros Ha Hn Hl. apply Hn. by constructor. Qed.

(** An entry that is no object stops [tag_document] over the array. *)
Lemma tag_documents_bad_entry docs : ∀ h : heap,
  ¬ Forall (is_object h) docs →
  ∃ h' : heap, array_map tag_document docs h = (h', Throw TypeError).
Proof.
  induction docs as [|v vs IH]; intros h Hbad.
  - destruct Hbad. constructor.
  - simpl. unfold mbind, js_bind.
    destruct (decide (is_object h v)) as [Hv|Hv].
    + destruct (object_cell _ _ Hv) as (l & c & -> & Hl).
      rewrite (tag_document_object _ _ _ Hl).
      destruct (IH (<[l := tagged_document c]> h)) as (h' & ->).
      { intros Hall. eapply not_Forall_cons_inv; [exact Hv|exact Hbad|].
        eapply Forall_impl; [exact Hall|]. intros w. by eapply is_object_insert_inv. }
      by eexists.
    + rewrite (tag_document_not_object _ _ Hv). by eexists.
Qed.

(** An entry that is no object, or one whose id does not convert to a
    string, stops [tag_question] over the array. *)
Lemma tag_questions_bad_entry qs : ∀ h : heap,
  ¬ (Forall (is_object h) qs ∧ Forall (id_converts h) qs) →
  ∃ h' : heap, array_map tag_question qs h = (h', Throw TypeError).
Proof.
  induction qs as [|v vs IH]; intros h Hbad.
  - destruct Hbad. split; constructor.
  - simpl. unfold mbind, js_bind.
    destruct (decide (is_object h v)) as [Hv|Hv].
    + destruct (object_cell _ _ Hv) as (l & c & -> & Hl).
      rewrite (tag_question_object _ _ _ Hl).
      destruct (to_string h (id_of c)) as [s|[]] eqn:Hs; [|by eexists].
      pose proof (rewritten_insert_question h l c s Hl) as Hrw.
      destruct (IH (<[l := tagged_question s c]> h)) as (h' & ->).
      { intros [Hobj Hids]. apply Hbad. split.
        - constructor; [done|]. by apply (objects_rewritten _ _ _ Hrw).
        - constructor; [|by apply (ids_convert_rewritten _ _ _ Hrw)].
          apply (id_converts_object _ _ _ Hl). unfold converts. by rewrite Hs. }
      by eexists.
    + rewrite (tag_question_not_object _ _ Hv). by eexists.
Qed.

Lemma build_suggestions_bad_entry (h : heap) data docs qs :
  array_at h data "documents" = Some docs →
  array_at h data "questions" = Some qs →
  ¬ (Forall (is_object h) docs ∧ Forall (is_object h) qs ∧
     Forall (id_converts h) qs) →
  ∃ h' : heap, build_suggestions data h = (h', Throw TypeError).
Proof.
  intros Hd Hq Hbad.
  rewrite (build_suggestions_arrays _ _ _ _ Hd Hq).
  destruct (decide (Forall (is_object h) docs)) as [Hdo|Hdo].
  - destruct (tag_documents_ok docs h Hdo) as (h1 & Hrun & _).
    pose proof (tag_documents_rewritten docs h) as Hrw. rewrite Hrun in Hrw.
    apply type_only_weaken in Hrw. simpl in Hrw. rewrite Hrun.
    destruct (tag_questions_bad_entry qs h1) as (h2 & ->); [|by eexists].
    intros [Hqo Hids]. apply Hbad. split; [done|]. split.
    + by apply (objects_rewritten _ _ _ Hrw).
    + by apply (ids_convert_rewritten _ _ _ Hrw).
  - destruct (tag_documents_bad_entry docs h Hdo) as (h1 & ->). by eexists.
Qed.

(** X2: the callback of a successful suggestion response posts a
    [SET_SUGGESTIONS] event exactly when the body has a [documents] array
    and a [questions] array, every entry of both is an object and the id of
    every question converts to a string; an entry that is [null],
    [undefined] or a primitive makes the assignment of its [type] throw, an
    id with a [toString] member makes the template literal throw, and
    nothing is posted. *)
Theorem suggestions_iff_well_formed (st : state) (i : nat) (x : xhr) (data : value) :
  xhrs st !! i = Some x →
  xhr_callbacks x = SuggestCallbacks →
  xhr_settled x = false →
  let st' := settle i (Done data) st in
  ((∃ v, bus st' = bus st ++ [SET_SUGGESTIONS v]) ↔
   (∃ docs qs,
      array_at (objects st) data "documents" = Some docs ∧
      array_at (objects st) data "questions" = Some qs ∧
      Forall (is_object (objects st)) docs ∧
      Forall (is_object (objects st)) qs ∧
      Forall (id_converts (objects st)) qs))
  ∧ ((¬ ∃ docs qs,
        array_at (objects st) data "documents" = Some docs ∧
        array_at (objects st) data "questions" = Some qs ∧
        Forall (is_object (objects st)) docs ∧
        Forall (is_object (objects st)) qs ∧
        Forall (id_converts (objects st)) qs) →
     bus st' = bus st ∧ uncaught st' = uncaught st ++ [TypeError]).
Proof.
  intros Hx Hcb Hs st'.
  assert (Hst' : st' = suggest_done data (with_xhrs (<[i := settled x]> (xhrs st)) st))
    by (unfold st'; by rewrite (settle_pending _ _ _ _ Hx Hs), Hcb).
  assert (Hthrow : (¬ ∃ docs qs,
        array_at (objects st) data "documents" = Some docs ∧
        array_at (objects st) data "questions" = Some qs ∧
        Forall (is_object (objects st)) docs ∧
        Forall (is_object (objects st)) qs ∧
        Forall (id_converts (objects st)) qs) →
     bus st' = bus st ∧ uncaught st' = uncaught st ++ [TypeError]).
  { intros Hnot.
    assert (∃ h', build_suggestions data (objects st) = (h', Throw TypeError))
      as (h' & Hrun).
    { destruct (array_at (objects st) data "documents") as [docs|] eqn:Hd;
        [|apply build_suggestions_throws; by left].
      destruct (array_at (objects st) data "questions") as [qs|] eqn:Hq;
        [|apply build_suggestions_throws; by right].
      apply (build_suggestions_bad_entry _ _ docs qs); try done.
      intros (Hdo & Hqo & Hids). apply Hnot. by exists docs, qs. }
    rewrite Hst'. unfold suggest_done. simpl. by rewrite Hrun. }
  split; [|exact Hthrow]. split.
  - intros (v & Hbus).
    assert (Hdec : (∃ docs qs,
        array_at (objects st) data "documents" = Some docs ∧
        array_at (objects st) data "questions" = Some qs ∧
        Forall (is_object (objects st)) docs ∧
        Forall (is_object (objects st)) qs ∧
        Forall (id_converts (objects st)) qs) ∨
      ¬ (∃ docs qs,
        array_at (objects st) data "documents" = Some docs ∧
        array_at (objects st) data "questions" = Some qs ∧
        Forall (is_object (objects st)) docs ∧
        Forall (is_object (objects st)) qs ∧
        Forall (id_converts (objects st)) qs)).
    { destruct (array_at (objects st) data "documents") as [docs|];
        [|right; by intros (? & ? & ? & _)].
      destruct (array_at (objects st) data "questions") as [qs|];
        [|right; by intros (? & ? & _ & ? & _)].
      destruct (decide (Forall (is_object (objects st)) docs)) as [Hdo|Hdo];
        [|right; intros (? & ? & ? & _ & ? & _); by simplify_eq].
      destruct (decide (Forall (is_object (objects st)) qs)) as [Hqo|Hqo];
        [|right; intros (? & ? & _ & ? & _ & ? & _); by simplify_eq].
      destruct (decide (Forall (id_converts (objects st)) qs)) as [Hids|Hids];
        [|right; intros (? & ? & _ & ? & _ & _ & ?); by simplify_eq].
      left. by exists docs, qs. }
    destruct Hdec as [Hwf|Hnot]; [done|].
    destruct (Hthrow Hnot) as [Hsame _]. rewrite Hsame in Hbus.
    apply (f_equal length) in Hbus. rewrite length_app in Hbus. simpl in Hbus. lia.
  - intros (docs & qs & Hd & Hq & Hdo & Hqo & Hids).
    destruct (settle_suggest_ok st i x data docs qs) as (h2 & Hrun & _); try done.
    eexists. unfold st'. by rewrite Hrun.
Qed.

Lemma suggestions_iff_well_formed_witness :
  (∃ v, bus (settle 0 (Done (VRef 1%positive)) (sample_waiting sample_objects))
        = bus (sample_waiting sample_objects) ++ [SET_SUGGESTIONS v])
  ∧ bus (settle 0 (Done (VRef 1%positive)) (sample_waiting sample_objects_null_entry))
    = bus (sample_waiting sample_objects_null_entry)
  ∧ bus (settle 0 (Done (VRef 1%positive)) (sample_waiting sample_objects_bad_id))
    = bus (sample_waiting sample_objects_bad_id).
Proof.
  split; [|split].
  - destruct (suggestions_iff_well_formed (sample_waiting sample_objects) 0
                (Xhr 1000 (suggest_request (VStr "t") sample_draft)
                     SuggestCallbacks false)
                (VRef 1%positive)) as [[_ Hposts] _].
    + vm_compute. reflexivity.
    + reflexivity.
    + reflexivity.
    + apply Hposts. exists [VRef 4%positive], [VRef 5%positive].
      split; [vm_compute; reflexivity|]. split; [vm_compute; reflexivity|].
      split; [|split]; apply (bool_decide_unpack _); vm_compute; exact I.
  - destruct (suggestions_iff_well_formed (sample_waiting sample_objects_null_entry) 0
                (Xhr 1000 (suggest_request (VStr "t") sample_draft)
                     SuggestCallbacks false)
                (VRef 1%positive)) as [_ Hthrows].
    + vm_compute. reflexivity.
    + reflexivity.
    + reflexivity.
    + apply Hthrows. intros (docs & qs & Hd & _ & Hdo & _).
      assert (Hdocs : docs = [VRef 4%positive; VNull])
        by (vm_compute in Hd; congruence).
      subst docs. apply Forall_cons in Hdo as [_ Hdo].
      apply Forall_cons in Hdo as [Hnull _]. exact Hnull.
  - destruct (suggestions_iff_well_formed (sample_waiting sample_objects_bad_id) 0
                (Xhr 1000 (suggest_request (VStr "t") sample_draft)
                     SuggestCallbacks false)
                (VRef 1%positive)) as [_ Hthrows].
    + vm_compute. reflexivity.
    + reflexivity.
    + reflexivity.
    + apply Hthrows. intros (docs & qs & _ & Hq & _ & _ & Hids).
      assert (Hqs : qs = [VRef 4%positive; VRef 5%positive])
        by (vm_compute in Hq; congruence).
      subst qs. apply Forall_cons in Hids as [Hbad _].
      vm_compute in Hbad. exact Hbad.
Defined.

(** ** What the tagging leaves alone *)

Lemma tag_document_frame v (h : heap) l :
  v ≠ VRef l → (tag_document v h).1 !! l = h !! l.
Proof.
  intros Hv. destruct (decide (is_object h v)) as [Ho|Ho].
  - destruct (object_cell _ _ Ho) as (l' & c & -> & Hl).
    rewrite (tag_document_object _ _ _ Hl). simpl.
    apply lookup_insert_ne. congruence.
  - by rewrite (tag_document_not_object _ _ Ho).
Qed.

Lemma tag_question_frame v (h : heap) l :
  v ≠ VRef l → (tag_question v h).1 !! l = h !! l.
Proof.
  intros Hv. destruct (decide (is_object h v)) as [Ho|Ho].
  - destruct (object_cell _ _ Ho) as (l' & c & -> & Hl).
    rewrite (tag_question_object _ _ _ Hl).
    destruct (to_string h (id_of c)); simpl; apply lookup_insert_ne; congruence.
  - by rewrite (tag_question_not_object _ _ Ho).
Qed.

(** A callback that writes into its argument only, mapped over a list,
    writes into the listed objects only. *)
Lemma array_map_frame (f : value → js value) vs :
  (∀ v h l, v ≠ VRef l → (f v h).1 !! l = h !! l) →
  ∀ h l, VRef l ∉ vs → (array_map f vs h).1 !! l = h !! l.
Proof.
  intros Hf. induction vs as [|v vs IH]; intros h l Hl; simpl; [done|].
  apply not_elem_of_cons in Hl as [Hne Hl]. unfold mbind, js_bind.
  assert (Hv : (f v h).1 !! l = h !! l) by (apply Hf; congruence).
  destruct (f v h) as [h1 [w|e]]; simpl in Hv; [|exact Hv].
  specialize (IH h1 l Hl).
  destruct (array_map f vs h1) as [h2 [ws|e]]; simpl in *; by rewrite IH.
Qed.

Lemma build_suggestions_frame (h : heap) data docs qs l :
  array_at h data "documents" = Some docs →
  array_at h data "questions" = Some qs →
  VRef l ∉ docs → VRef l ∉ qs → is_Some (h !! l) →
  (build_suggestions data h).1 !! l = h !! l.
Proof.
  intros Hd Hq Hnd Hnq Hl.
  rewrite (build_suggestions_arrays _ _ _ _ Hd Hq).
  pose proof (array_map_frame tag_document docs tag_document_frame h l Hnd) as H1.
  destruct (array_map tag_document docs h) as [h1 [ds|e]]; simpl in H1;
    [|exact H1].
  pose proof (array_map_frame tag_question qs tag_question_frame h1 l Hnq) as H2.
  destruct (array_map tag_question qs h1) as [h2 [qs'|e]]; simpl in H2.
  - unfold alloc_array. simpl.
    rewrite lookup_below_fresh by (by rewrite H2, H1). by rewrite H2.
  - simpl. by rewrite H2.
Qed.

(** Whatever the body, the objects of the heap are kept by the callback. *)
Lemma build_suggestions_kept (h : heap) data :
  kept h (build_suggestions data h).1.
Proof.
  pose proof (build_suggestions_outcome h data) as Hout.
  destruct (build_suggestions data h) as [h' [v|e]]; simpl.
  - destruct Hout as (h2 & vs & Hrw & -> & ->). intros l c Hl.
    destruct (Hrw l) as (f & Hf & Hf'). rewrite Hl in Hf. simpl in Hf.
    exists (f c). split; [|apply Hf'].
    rewrite lookup_below_fresh; [done|]. rewrite Hf. by eexists.
  - intros l c Hl. destruct (Hout l) as (f & Hf & Hf').
    rewrite Hl in Hf. exists (f c). split; [done|apply Hf'].
Qed.

Lemma settle_suggest_objects (st : state) i x data :
  xhrs st !! i = Some x →
  xhr_callbacks x = SuggestCallbacks →
  xhr_settled x = false →
  objects (settle i (Done data) st) = (build_suggestions data (objects st)).1.
Proof.
  intros Hx Hcb Hs. rewrite (settle_pending _ _ _ _ Hx Hs), Hcb.
  unfold suggest_done. simpl.
  by destruct (build_suggestions data (objects st)) as [h [v|e]].
Qed.

(** X3: on a well-formed body the callback writes only into the objects the
    two arrays list: every other object of the heap, the response object
    and the two arrays among them, is left exactly as it was; a listed
    question keeps every property other than [type], [url] and [summary],
    its [id] among them; and no array loses or gains an element. *)
Theorem unlisted_objects_untouched (st : state) (i : nat) (x : xhr) (data : value)
    (docs qs : list value) :
  xhrs st !! i = Some x →
  xhr_callbacks x = SuggestCallbacks →
  xhr_settled x = false →
  array_at (objects st) data "documents" = Some docs →
  array_at (objects st) data "questions" = Some qs →
  Forall (is_object (objects st)) docs →
  Forall (is_object (objects st)) qs →
  let st' := settle i (Done data) st in
  (∀ l c, objects st !! l = Some c → VRef l ∉ docs → VRef l ∉ qs →
          objects st' !! l = Some c)
  ∧ (∀ q k, q ∈ qs → k ∉ ["type"; "url"; "summary"] →
            prop_of (objects st') q k = prop_of (objects st) q k)
  ∧ (∀ l c, objects st !! l = Some c →
            elems <$> objects st' !! l = Some (elems c)).
Proof.
  intros Hx Hcb Hs Hd Hq Hdo Hqo st'.
  assert (Hobj : objects st' = (build_suggestions data (objects st)).1)
    by (by apply (settle_suggest_objects st i x)).
  pose proof (build_suggestions_kept (objects st) data) as Hkept.
  rewrite <- Hobj in Hkept.
  split; [|split].
  - intros l c Hl Hnd Hnq.
    rewrite Hobj, (build_suggestions_frame _ _ docs qs); try done.
  - intros q k Hin Hk. rewrite Forall_forall in Hqo.
    destruct (object_cell _ _ (Hqo q Hin)) as (lq & c & -> & Hc).
    destruct (Hkept lq c Hc) as (c' & Hc' & _ & Hp).
    unfold prop_of. rewrite Hc', Hc. simpl. by apply Hp.
  - intros l c Hl.
    destruct (Hkept l c Hl) as (c' & Hc' & He & _).
    rewrite Hc'. simpl. by rewrite He.
Qed.

Lemma unlisted_objects_untouched_witness :
  let st := sample_waiting sample_objects in
  let st' := settle 0 (Done (VRef 1%positive)) st in
  objects st' !! 1%positive
    = Some (Cell None {[ "documents" := VRef 2%positive;
                         "questions" := VRef 3%positive ]}) ∧
  prop_of (objects st') (VRef 5%positive) "title"
    = prop_of (objects st) (VRef 5%positive) "title".
Proof.
  intros st st'.
  destruct (unlisted_objects_untouched st 0
              (Xhr 1000 (suggest_request (VStr "t") sample_draft) SuggestCallbacks false)
              (VRef 1%positive) [VRef 4%positive] [VRef 5%positive])
    as (Hother & Hkeep & _).
  - vm_compute. reflexivity.
  - reflexivity.
  - reflexivity.
  - vm_compute. reflexivity.
  - vm_compute. reflexivity.
  - apply (bool_decide_unpack _). vm_compute. exact I.
  - apply (bool_decide_unpack _). vm_compute. exact I.
  - split.
    + apply Hother.
      * vm_compute. reflexivity.
      * apply (bool_decide_unpack _). vm_compute. exact I.
      * apply (bool_decide_unpack _). vm_compute. exact I.
    + apply Hkeep.
      * apply elem_of_cons. by left.
      * apply (bool_decide_unpack _). vm_compute. exact I.
Defined.

(** ** The url of a question *)

(** X4: on a body whose arrays hold objects, the ids of the questions
    converting to strings, the url the callback gives a question is
    "/questions/" followed by the string form of its [id]: a question
    without an [id] gets "/questions/undefined", an [id] of [null] gives
    "/questions/null", a number, an integer of the safe range, its decimal
    digits, a string itself; a url that the response carried for the
    question is overwritten. *)
Theorem question_url_by_id (st : state) (i : nat) (x : xhr) (data : value)
    (docs qs : list value) (q : value) :
  xhrs st !! i = Some x →
  xhr_callbacks x = SuggestCallbacks →
  xhr_settled x = false →
  array_at (objects st) data "documents" = Some docs →
  array_at (objects st) data "questions" = Some qs →
  Forall (is_object (objects st)) docs →
  Forall (is_object (objects st)) qs →
  Forall (id_converts (objects st)) qs →
  q ∈ qs →
  let url := prop_of (objects (settle i (Done data) st)) q "url" in
  (prop_of (objects st) q "id" = None →
     url = Some (VStr "/questions/undefined"))
  ∧ (prop_of (objects st) q "id" = Some VUndefined →
       url = Some (VStr "/questions/undefined"))
  ∧ (prop_of (objects st) q "id" = Some VNull →
       url = Some (VStr "/questions/null"))
  ∧ (∀ n safe, prop_of (objects st) q "id" = Some (VNumber n safe) →
          url = Some (VStr ("/questions/" +:+ pretty n)))
  ∧ (∀ s, prop_of (objects st) q "id" = Some (VStr s) →
          url = Some (VStr ("/questions/" +:+ s))).
Proof.
  intros Hx Hcb Hs Hd Hq Hdo Hqo Hids Hin url.
  destruct (settle_question_props st i x data docs qs q)
    as (s & Hstr & _ & Hurl & _); try done.
  apply id_string_cases in Hstr. unfold url.
  repeat split.
  - intros Hid. rewrite Hid in Hstr. by subst s.
  - intros Hid. rewrite Hid in Hstr. by subst s.
  - intros Hid. rewrite Hid in Hstr. by subst s.
  - intros n safe Hid. rewrite Hid in Hstr. by subst s.
  - intros t Hid. rewrite Hid in Hstr. by subst s.
Qed.

Lemma question_url_by_id_witness :
  prop_of (objects (settle 0 (Done (VRef 1%positive)) (sample_waiting sample_objects)))
          (VRef 5%positive) "url" = Some (VStr "/questions/42").
Proof.
  destruct (question_url_by_id (sample_waiting sample_objects) 0
              (Xhr 1000 (suggest_request (VStr "t") sample_draft) SuggestCallbacks false)
              (VRef 1%positive) [VRef 4%positive] [VRef 5%positive] (VRef 5%positive))
    as (_ & _ & _ & Hnum & _).
  - vm_compute. reflexivity.
  - reflexivity.
  - reflexivity.
  - vm_compute. reflexivity.
  - vm_compute. reflexivity.
  - apply (bool_decide_unpack _). vm_compute. exact I.
  - apply (bool_decide_unpack _). vm_compute. exact I.
  - apply (bool_decide_unpack _). vm_compute. exact I.
  - apply elem_of_cons. by left.
  - apply (Hnum 42%Z I). vm_compute. reflexivity.
Defined.

(** ** Tagging twice *)

(** X5: each of the two callbacks is idempotent on any value and any heap:
    applied to its own result it leaves the heap, the returned value and, on
    a value that is no object, the thrown error exactly as after the first
    application; a question tagged again gets the same url. *)
Theorem tagging_idempotent (v : value) (h : heap) :
  (tag_question v ≫= tag_question) h = tag_question v h
  ∧ (tag_document v ≫= tag_document) h = tag_document v h.
Proof.
  unfold mbind, js_bind.
  destruct (decide (is_object h v)) as [Hv|Hv].
  - destruct (object_cell _ _ Hv) as (l & c & -> & Hl). split.
    + rewrite (tag_question_object _ _ _ Hl).
      destruct (to_string h (id_of c)) as [s|e] eqn:Hs; [|reflexivity].
      rewrite (tag_question_object _ _ (tagged_question s c))
        by apply lookup_insert_eq.
      rewrite id_of_tagged_question.
      rewrite (to_string_rewritten h _ _ (rewritten_insert_question h l c s Hl)).
      by rewrite Hs, insert_insert_eq, tagged_question_idem.
    + rewrite (tag_document_object _ _ _ Hl).
      rewrite (tag_document_object _ _ (tagged_document c))
        by apply lookup_insert_eq.
      by rewrite insert_insert_eq, tagged_document_idem.
  - by rewrite (tag_question_not_object _ _ Hv), (tag_document_not_object _ _ Hv).
Qed.

(** ** Answers that arrive out of order *)

Lemma is_object_after_answer (h h2 : heap) c v :
  rewritten ["type"; "url"; "summary"] h h2 →
  is_object h v → is_object (<[fresh (dom h2) := c]> h2) v.
Proof.
  intros Hrw. destruct v as [| | | | |l]; simpl; try done.
  intros Hl. destruct (decide (fresh (dom h2) = l)) as [<-|Hne].
  - rewrite lookup_insert_eq. by eexists.
  - rewrite lookup_insert_ne by done.
    apply elem_of_dom. rewrite (rewritten_dom _ _ _ Hrw). by apply elem_of_dom.
Qed.

(** X6: the callback has no guard on the order of answers.  When two
    suggestion requests are pending and both bodies are well formed, the
    ids of the questions of each converting to strings when its answer
    arrives, the answer that arrives last posts the last [SET_SUGGESTIONS]
    event, with its own entries, whichever of the two requests was sent
    first; the earlier payload stays in the heap as it was posted. *)
Theorem late_answer_posts_last (st : state) (i j : nat) (xi xj : xhr)
    (di dj : value) (docs_i qs_i docs_j qs_j : list value) :
  i ≠ j →
  xhrs st !! i = Some xi → xhr_callbacks xi = SuggestCallbacks →
  xhr_settled xi = false →
  xhrs st !! j = Some xj → xhr_callbacks xj = SuggestCallbacks →
  xhr_settled xj = false →
  array_at (objects st) di "documents" = Some docs_i →
  array_at (objects st) di "questions" = Some qs_i →
  Forall (is_object (objects st)) docs_i →
  Forall (is_object (objects st)) qs_i →
  Forall (id_converts (objects (settle j (Done dj) st))) qs_i →
  array_at (objects st) dj "documents" = Some docs_j →
  array_at (objects st) dj "questions" = Some qs_j →
  Forall (is_object (objects st)) docs_j →
  Forall (is_object (objects st)) qs_j →
  Forall (id_converts (objects st)) qs_j →
  let st' := settle i (Done di) (settle j (Done dj) st) in
  ∃ lj li : loc,
    lj ≠ li ∧
    bus st' = bus st ++ [SET_SUGGESTIONS (VRef lj); SET_SUGGESTIONS (VRef li)] ∧
    elems <$> objects st' !! lj = Some (Some (docs_j ++ qs_j)) ∧
    elems <$> objects st' !! li = Some (Some (docs_i ++ qs_i)).
Proof.
  intros Hij Hxi Hci Hsi Hxj Hcj Hsj Hdi Hqi Hdoi Hqoi Hidi Hdj Hqj Hdoj Hqoj Hidj st'.
  destruct (settle_suggest_ok st j xj dj docs_j qs_j) as (h2 & Hrun & Hrw & _);
    try done.
  set (lj := fresh (dom h2)) in *.
  set (st1 := settle j (Done dj) st) in *.
  assert (Hobj1 : objects st1 = <[lj := Cell (Some (docs_j ++ qs_j)) ∅]> h2)
    by (by rewrite Hrun).
  assert (Hbus1 : bus st1 = bus st ++ [SET_SUGGESTIONS (VRef lj)])
    by (by rewrite Hrun).
  assert (Hxi1 : xhrs st1 !! i = Some xi).
  { rewrite Hrun. simpl. by rewrite list_lookup_insert_ne. }
  destruct (settle_suggest_ok st1 i xi di docs_i qs_i) as (h3 & Hrun' & Hrw' & _);
    try done.
  - rewrite Hobj1. apply array_at_below_fresh.
    by rewrite (rewritten_array_at _ _ _ _ _ Hrw) by other_key.
  - rewrite Hobj1. apply array_at_below_fresh.
    by rewrite (rewritten_array_at _ _ _ _ _ Hrw) by other_key.
  - rewrite Hobj1. eapply Forall_impl; [exact Hdoi|].
    intros v. by apply is_object_after_answer.
  - rewrite Hobj1. eapply Forall_impl; [exact Hqoi|].
    intros v. by apply is_object_after_answer.
  - assert (Hlj : elems <$> h3 !! lj = Some (Some (docs_j ++ qs_j))).
    { rewrite <- (rewritten_shape _ _ _ Hrw'), Hobj1. by rewrite lookup_insert_eq. }
    assert (Hne : lj ≠ fresh (dom h3)).
    { intros Heq. apply (is_fresh (dom h3)). rewrite <- Heq.
      apply elem_of_dom. destruct (h3 !! lj); [by eexists|done]. }
    exists lj, (fresh (dom h3)). unfold st'. rewrite Hrun'. simpl.
    split; [exact Hne|]. split; [by rewrite Hbus1, <- app_assoc|]. split.
    + by rewrite lookup_insert_ne.
    + by rewrite lookup_insert_eq.
Qed.

Lemma late_answer_posts_last_witness :
  let st' := settle 0 (Done (VRef 1%positive))
               (settle 1 (Done (VRef 7%positive)) sample_two_waiting) in
  ∃ lj li : loc,
    lj ≠ li ∧
    bus st' = bus sample_two_waiting
              ++ [SET_SUGGESTIONS (VRef lj); SET_SUGGESTIONS (VRef li)] ∧
    elems <$> objects st' !! lj = Some (Some ([] ++ [VRef 10%positive])) ∧
    elems <$> objects st' !! li = Some (Some ([VRef 4%positive] ++ [VRef 5%positive])).
Proof.
  eapply (late_answer_posts_last sample_two_waiting 0 1 _ _
            (VRef 1%positive) (VRef 7%positive)).
  - discriminate.
  - vm_compute. reflexivity.
  - reflexivity.
  - reflexivity.
  - vm_compute. reflexivity.
  - reflexivity.
  - reflexivity.
  - vm_compute. reflexivity.
  - vm_compute. reflexivity.
  - apply (bool_decide_unpack _). vm_compute. exact I.
  - apply (bool_decide_unpack _). vm_compute. exact I.
  - apply (bool_decide_unpack _). vm_compute. exact I.
  - vm_compute. reflexivity.
  - vm_compute. reflexivity.
  - apply (bool_decide_unpack _). vm_compute. exact I.
  - apply (bool_decide_unpack _). vm_compute. exact I.
  - apply (bool_decide_unpack _). vm_compute. exact I.
Defined.

(** ** Submissions *)

Lemma run_cons (inp : input) (ins : list input) (st : state) :
  run (inp :: ins) st = run ins (step inp st).
Proof. reflexivity. Qed.

Lemma step_csrf (inp : input) (st : state) : csrf (step inp st) = csrf st.
Proof.
  destruct inp; simpl; try reflexivity.
  - unfold setTitle, throttled_searchSuggestions, throttle_call.
    destruct (_ || _); simpl; [reflexivity|].
    by destruct (timeout (throttled st)).
  - unfold submitQuestion. simpl.
    destruct (csrf st) eqn:Hc; simpl; by rewrite ?Hc.
  - unfold settle. destruct (xhrs st !! i) as [x|]; [|reflexivity].
    destruct (xhr_settled x); [reflexivity|].
    destruct (xhr_callbacks x), r; try reflexivity.
    unfold suggest_done. simpl.
    by destruct (build_suggestions data (objects st)) as [h [v|e]].
  - destruct (timeout (throttled st)) as [due|]; [|reflexivity].
    by destruct (due <=? clock st).
  - by destruct (objects st !! l).
Qed.

Lemma answered_le_submits (l : list xhr) :
  (count (λ x, is_submit x && xhr_settled x) l ≤ count is_submit l)%nat.
Proof.
  unfold count. induction l as [|y l IH]; simpl; [done|].
  destruct (is_submit y), (xhr_settled y); simpl; lia.
Qed.

(** The events a step posts, and what they count for. *)
Lemma bus_step (inp : input) (st : state) :
  ∃ evs, bus (step inp st) = bus st ++ evs ∧
         count is_optimistic evs = (if is_submit_call inp then 1 else 0)%nat ∧
         count is_set_title evs = (if is_title_call inp then 1 else 0)%nat.
Proof.
  destruct inp; simpl;
    try (by eexists [_]);
    try (exists []; by rewrite app_nil_r).
  - exists [SET_TITLE title]. unfold setTitle. by rewrite bus_throttled.
  - exists [QUESTION_SUBMIT_OPTIMISTIC]. unfold submitQuestion. simpl.
    by destruct (csrf st).
  - unfold settle. destruct (xhrs st !! i) as [x|];
      [|exists []; by rewrite app_nil_r].
    destruct (xhr_settled x); [exists []; by rewrite app_nil_r|].
    destruct (xhr_callbacks x), r; simpl;
      try (by eexists [_]); try (exists []; by rewrite app_nil_r).
    unfold suggest_done. simpl.
    destruct (build_suggestions data (objects st)) as [h [v|e]]; simpl;
      [by eexists [_]|exists []; by rewrite app_nil_r].
  - destruct (timeout (throttled st)) as [due|];
      [|exists []; by rewrite app_nil_r].
    destruct (due <=? clock st); exists []; by rewrite app_nil_r.
  - destruct (objects st !! l); exists []; by rewrite app_nil_r.
Qed.

Lemma submits_step_no_csrf (inp : input) (st : state) :
  csrf st = None →
  count is_submit (xhrs (step inp st)) = count is_submit (xhrs st).
Proof.
  intros Hc. destruct inp; simpl; try reflexivity.
  - unfold setTitle. rewrite xhrs_throttled. simpl.
    rewrite count_app. destruct (_ || _); rewrite ?count_single, ?count_nil; simpl; lia.
  - unfold submitQuestion. simpl. by rewrite Hc.
  - destruct (xhrs st !! i) as [x|] eqn:Hx; [|unfold settle; by rewrite Hx].
    destruct (xhr_settled x) eqn:Hs; [by rewrite (settle_settled _ _ _ _ Hx Hs)|].
    rewrite (xhrs_after_settle _ _ _ _ Hx Hs).
    by destruct (count_settled _ _ _ Hx Hs) as [_ ->].
  - destruct (timeout (throttled st)) as [due|]; [|reflexivity].
    destruct (due <=? clock st); [|reflexivity].
    rewrite xhrs_later, count_app, count_single. simpl. lia.
  - by destruct (objects st !! l).
Qed.

Lemma run_no_csrf (ins : list input) : ∀ st : state,
  csrf st = None →
  csrf (run ins st) = None ∧
  count is_submit (xhrs (run ins st)) = count is_submit (xhrs st) ∧
  count is_optimistic (bus (run ins st))
  = (count is_optimistic (bus st) + count is_submit_call ins)%nat.
Proof.
  induction ins as [|inp ins IH]; intros st Hc.
  - unfold run. simpl. rewrite count_nil. repeat split; [done|lia].
  - rewrite run_cons.
    destruct (IH (step inp st)) as (Hc' & Hs' & Ho'); [by rewrite step_csrf|].
    split; [exact Hc'|]. split; [by rewrite Hs', submits_step_no_csrf|].
    rewrite Ho'. destruct (bus_step inp st) as (evs & -> & Hopt & _).
    rewrite count_app, Hopt.
    change (inp :: ins) with ([inp] ++ ins). rewrite (count_app _ [inp]), count_single.
    lia.
Qed.

(** X7: on a page without the [csrfmiddlewaretoken] input, [submitQuestion]
    posts [QUESTION_SUBMIT_OPTIMISTIC] and then throws from [beforeSend]:
    no request is sent.  So over any run of such a page every call of
    [submitQuestion] adds one optimistic event, no submission is ever sent,
    and no [QUESTION_SUBMIT_SUCCESS] or [QUESTION_SUBMIT_FAILURE] ever
    follows. *)
Theorem no_csrf_no_submission :
  (∀ st, csrf st = None →
         submitQuestion st = (dispatch QUESTION_SUBMIT_OPTIMISTIC st, Throw TypeError))
  ∧ (∀ t0 d ins,
       let st := run ins (init t0 d None) in
       count is_optimistic (bus st) = count is_submit_call ins ∧
       count is_submit (xhrs st) = 0%nat ∧
       count is_outcome (bus st) = 0%nat).
Proof.
  split.
  - intros st Hc. unfold submitQuestion. simpl. by rewrite Hc.
  - intros t0 d ins st.
    destruct (run_no_csrf ins (init t0 d None) eq_refl) as (_ & Hs & Ho).
    split; [exact Ho|]. split; [exact Hs|].
    destruct (submit_inv_run ins (init t0 d None)) as [Hout _]; [by split|].
    pose proof (answered_le_submits (xhrs (run ins (init t0 d None)))) as Hle.
    fold st in Hs, Hout, Hle. rewrite Hs in Hle. simpl in Hle.
    change (count is_submit []) with 0%nat in Hle. lia.
Qed.

Lemma no_csrf_no_submission_witness :
  submitQuestion (init 1000 sample_draft None)
  = (dispatch QUESTION_SUBMIT_OPTIMISTIC (init 1000 sample_draft None),
     Throw TypeError).
Proof.
  destruct no_csrf_no_submission as [Hcall _].
  apply Hcall. reflexivity.
Defined.

(** X8: [submitQuestion] has no guard against a second call: on a page with
    the CSRF input, n calls in a row post n optimistic events and send n
    POST requests, each with the whole draft as its body and the token as
    its [X-CSRFToken] header; nothing else of the page changes. *)
Theorem submit_repeated (n : nat) (st : state) (token : string) :
  csrf st = Some token →
  let st' := run (replicate n CallSubmitQuestion) st in
  bus st' = bus st ++ replicate n QUESTION_SUBMIT_OPTIMISTIC ∧
  xhrs st' = xhrs st ++
    replicate n (Xhr (clock st)
                     (Request "POST" "/api/2/question/" (draft st)
                              [("X-CSRFToken", token)])
                     SubmitCallbacks false) ∧
  console st' = console st ∧ uncaught st' = uncaught st ∧
  objects st' = objects st ∧ draft st' = draft st ∧
  clock st' = clock st ∧ throttled st' = throttled st.
Proof.
  revert st. induction n as [|n IH]; intros st Hc st'.
  - unfold st', run. simpl. rewrite !app_nil_r. repeat split.
  - unfold st'. rewrite replicate_S, run_cons.
    destruct (IH (step CallSubmitQuestion st)) as (Hb & Hx & Hrest);
      [by rewrite step_csrf|].
    rewrite Hb, Hx.
    assert (Hstep : step CallSubmitQuestion st =
      with_xhrs (xhrs st ++
                   [Xhr (clock st)
                        (Request "POST" "/api/2/question/" (draft st)
                                 [("X-CSRFToken", token)])
                        SubmitCallbacks false])
        (with_bus (bus st ++ [QUESTION_SUBMIT_OPTIMISTIC]) st)).
    { simpl. unfold submitQuestion. simpl. by rewrite Hc. }
    split; [rewrite Hstep; simpl; by rewrite <- app_assoc|].
    split; [rewrite Hstep; simpl; by rewrite <- app_assoc|].
    destruct Hrest as (-> & -> & -> & -> & -> & ->).
    by rewrite Hstep.
Qed.

Lemma submit_repeated_witness :
  bus (run (replicate 2 CallSubmitQuestion) sample_page)
  = [QUESTION_SUBMIT_OPTIMISTIC; QUESTION_SUBMIT_OPTIMISTIC] ∧
  length (xhrs (run (replicate 2 CallSubmitQuestion) sample_page)) = 2%nat.
Proof.
  destruct (submit_repeated 2 sample_page "token") as (Hb & Hx & _).
  - reflexivity.
  - split; [exact Hb|]. rewrite Hx. reflexivity.
Defined.

(** ** Sequences of forwarding calls *)

Lemma same_but_bus_trans (st1 st2 st3 : state) :
  same_but_bus st1 st2 → same_but_bus st2 st3 → same_but_bus st1 st3.
Proof.
  unfold same_but_bus.
  intros (-> & -> & -> & -> & -> & -> & -> & ->) (-> & -> & -> & -> & -> & -> & -> & ->).
  repeat split.
Qed.

(** X9: over any sequence of calls of [setProduct], [setTopic],
    [setSuggestions] and [setContent], the events are posted in the order
    of the calls, one per call, each with its own payload, and nothing of
    the page but the list of events changes: no request is sent, no timer
    is armed. *)
Theorem forwarding_in_order (ins : list input) (st : state) :
  Forall (λ inp, is_Some (forwarded inp)) ins →
  bus (run ins st) = bus st ++ omap forwarded ins ∧
  length (omap forwarded ins) = length ins ∧
  same_but_bus st (run ins st).
Proof.
  revert st. induction ins as [|inp ins IH]; intros st Hall.
  - unfold run. simpl. rewrite app_nil_r. repeat split.
  - apply Forall_cons in Hall as [[a Ha] Hall].
    rewrite run_cons. destruct (IH (step inp st) Hall) as (Hb & Hl & Hsame).
    assert (Hstep : bus (step inp st) = bus st ++ [a] ∧ same_but_bus st (step inp st)).
    { destruct inp; simpl in Ha; simplify_eq; simpl; repeat split. }
    destruct Hstep as [Hb1 Hs1].
    change (omap forwarded (inp :: ins))
      with (match forwarded inp with
            | Some y => y :: omap forwarded ins
            | None => omap forwarded ins
            end).
    rewrite Ha. split; [|split].
    + by rewrite Hb, Hb1, <- app_assoc.
    + simpl. by rewrite Hl.
    + by eapply same_but_bus_trans.
Qed.

Lemma forwarding_in_order_witness :
  bus (run [CallSetProduct (VStr "firefox"); CallSetTopic (VStr "sync");
            CallSetContent (VStr "help")] sample_page)
  = [SET_PRODUCT (VStr "firefox"); SET_TOPIC (VStr "sync"); SET_CONTENT (VStr "help")].
Proof.
  destruct (forwarding_in_order
              [CallSetProduct (VStr "firefox"); CallSetTopic (VStr "sync");
               CallSetContent (VStr "help")] sample_page) as (Hb & _).
  - repeat constructor; by eexists.
  - exact Hb.
Defined.

(** ** Title changes and the requests they cause *)

Lemma requests_step (inp : input) (st : state) :
  (length (suggest_times (step inp st)) + pending_timer (step inp st)
   ≤ length (suggest_times st) + pending_timer st
     + (if is_title_call inp then 1 else 0))%nat.
Proof.
  destruct inp; simpl; try (unfold pending_timer, suggest_times; simpl; lia).
  - unfold suggest_times, setTitle. rewrite xhrs_throttled. simpl.
    rewrite filter_app, fmap_app, length_app.
    unfold pending_timer, throttled_searchSuggestions, throttle_call. simpl.
    destruct (_ || _); simpl.
    + destruct (timeout (throttled st)); simpl; lia.
    + destruct (timeout (throttled st)); simpl; lia.
  - unfold submitQuestion. simpl. destruct (csrf st); simpl.
    + unfold ajax. simpl.
      rewrite (suggest_times_snoc (dispatch QUESTION_SUBMIT_OPTIMISTIC st)).
      simpl. rewrite app_nil_r. unfold pending_timer, suggest_times. simpl. lia.
    + unfold pending_timer, suggest_times. simpl. lia.
  - rewrite suggest_times_settle. unfold pending_timer.
    destruct (throttled_settle st i r) as [-> _]. lia.
  - destruct (timeout (throttled st)) as [due|] eqn:Hto;
      [|unfold pending_timer; rewrite Hto; lia].
    destruct (due <=? clock st); [|unfold pending_timer; rewrite Hto; lia].
    unfold suggest_times. rewrite xhrs_later, filter_app, fmap_app, length_app.
    unfold pending_timer. rewrite Hto, later_runs. simpl. lia.
  - destruct (objects st !! l); unfold pending_timer, suggest_times; simpl; lia.
Qed.

Lemma title_counts_run (ins : list input) : ∀ st : state,
  count is_set_title (bus (run ins st))
  = (count is_set_title (bus st) + count is_title_call ins)%nat ∧
  (length (suggest_times (run ins st)) + pending_timer (run ins st)
   ≤ length (suggest_times st) + pending_timer st + count is_title_call ins)%nat.
Proof.
  induction ins as [|inp ins IH]; intros st.
  - unfold run. simpl. rewrite count_nil. split; lia.
  - rewrite run_cons. destruct (IH (step inp st)) as [Hb Hr].
    change (inp :: ins) with ([inp] ++ ins). rewrite (count_app _ [inp]), count_single.
    pose proof (requests_step inp st) as Hstep.
    destruct (bus_step inp st) as (evs & Hevs & _ & Htitle).
    rewrite Hevs, count_app, Htitle in Hb. split; lia.
Qed.

(** X10: over any run of the page from its load, the [SET_TITLE] events are
    exactly as many as the calls of [setTitle], whether their search was
    sent or dropped, and the suggestion requests sent, plus one if a
    trailing timer is still armed, never outnumber those calls. *)
Theorem title_events_and_requests (t0 : Z) (d : gmap string value)
    (token : option string) (ins : list input) :
  let st := run ins (init t0 d token) in
  count is_set_title (bus st) = count is_title_call ins ∧
  (length (suggest_times st) + pending_timer st ≤ count is_title_call ins)%nat ∧
  (length (suggest_times st) ≤ count is_set_title (bus st))%nat.
Proof.
  intros st. destruct (title_counts_run ins (init t0 d token)) as [Hb Hr].
  fold st in Hb, Hr.
  change (count is_set_title (bus (init t0 d token))) with 0%nat in Hb.
  change (length (suggest_times (init t0 d token))) with 0%nat in Hr.
  change (pending_timer (init t0 d token)) with 0%nat in Hr.
  split; [lia|]. split; lia.
Qed.

Lemma title_events_and_requests_witness :
  count is_set_title (bus (run burst_then_timer sample_page)) = 3%nat ∧
  length (suggest_times (run burst_then_timer sample_page)) = 2%nat.
Proof.
  destruct (title_events_and_requests 1000 sample_draft (Some "token") burst_then_timer)
    as (Hb & _ & _).
  split; [exact Hb|]. vm_compute. reflexivity.
Defined.

(** ** Objects over a run *)

Lemma kept_refl h : kept h h.
Proof. intros l c Hl. by exists c. Qed.

Lemma kept_trans h1 h2 h3 : kept h1 h2 → kept h2 h3 → kept h1 h3.
Proof.
  intros H12 H23 l c Hl.
  destruct (H12 l c Hl) as (c2 & Hl2 & He2 & Hp2).
  destruct (H23 l c2 Hl2) as (c3 & Hl3 & He3 & Hp3).
  exists c3. split; [done|]. split; [congruence|].
  intros k Hk. rewrite Hp3, Hp2; done.
Qed.

Lemma kept_rewritten h h' : rewritten ["type"; "url"; "summary"] h h' → kept h h'.
Proof.
  intros Hrw l c Hl. destruct (Hrw l) as (f & Hf & Hf').
  exists (f c). rewrite Hf, Hl. split; [done|]. apply Hf'.
Qed.

Lemma kept_insert_new (h : heap) l c : h !! l = None → kept h (<[l := c]> h).
Proof.
  intros Hnew l' c' Hl'. exists c'. split; [|done].
  rewrite lookup_insert_ne; [done|]. intros <-. congruence.
Qed.

Lemma kept_step (inp : input) (st : state) :
  kept (objects st) (objects (step inp st)).
Proof.
  destruct inp; simpl; try apply kept_refl.
  - unfold setTitle, throttled_searchSuggestions, throttle_call.
    destruct (_ || _); simpl; [apply kept_refl|].
    destruct (timeout (throttled st)); apply kept_refl.
  - unfold submitQuestion. simpl. destruct (csrf st); apply kept_refl.
  - unfold settle. destruct (xhrs st !! i) as [x|]; [|apply kept_refl].
    destruct (xhr_settled x); [apply kept_refl|].
    destruct (xhr_callbacks x), r; try apply kept_refl.
    unfold suggest_done. simpl.
    pose proof (build_suggestions_outcome (objects st) data) as Hout.
    destruct (build_suggestions data (objects st)) as [h' [v|e]]; simpl.
    + destruct Hout as (h2 & vs & Hrw & -> & _).
      eapply kept_trans; [by apply kept_rewritten|].
      apply kept_insert_new, not_elem_of_dom, is_fresh.
    + by apply kept_rewritten.
  - destruct (timeout (throttled st)) as [due|]; [|apply kept_refl].
    destruct (due <=? clock st); apply kept_refl.
  - destruct (objects st !! l) eqn:Hl; simpl; [apply kept_refl|].
    by apply kept_insert_new.
Qed.

(** X11: over any run of the page no object of the heap is removed, no
    array gains, loses or reorders an element, and no property other than
    [type], [url] and [summary] of any object changes: the payload of an
    earlier [SET_SUGGESTIONS] event keeps listing the entries it was posted
    with, whatever answers arrive later. *)
Theorem objects_kept_over_runs (ins : list input) (st : state) (l : loc) (c : cell) :
  objects st !! l = Some c →
  ∃ c', objects (run ins st) !! l = Some c' ∧
        elems c' = elems c ∧
        ∀ k, k ∉ ["type"; "url"; "summary"] → props c' !! k = props c !! k.
Proof.
  revert st c. induction ins as [|inp ins IH]; intros st c Hl.
  - by exists c.
  - rewrite run_cons.
    destruct (kept_step inp st l c Hl) as (c1 & Hl1 & He1 & Hp1).
    destruct (IH _ _ Hl1) as (c2 & Hl2 & He2 & Hp2).
    exists c2. split; [done|]. split; [congruence|].
    intros k Hk. rewrite Hp2, Hp1; done.
Qed.

Lemma objects_kept_over_runs_witness :
  ∃ c', objects (run [Settle 0 (Done (VRef 1%positive));
                      Settle 0 (Fail (JqXHR 0 "error"))]
                     (sample_waiting sample_objects)) !! 2%positive = Some c' ∧
        elems c' = Some [VRef 4%positive].
Proof.
  destruct (objects_kept_over_runs
              [Settle 0 (Done (VRef 1%positive)); Settle 0 (Fail (JqXHR 0 "error"))]
              (sample_waiting sample_objects) 2%positive
              (Cell (Some [VRef 4%positive]) ∅)) as (c' & Hl & He & _).
  - vm_compute. reflexivity.
  - exists c'. split; [exact Hl|exact He].
Defined.

